(** * Cashback analytics: baseline statistics, anomaly detection, cohorts

    A shallow embedding of [src/preprocessing.py] (percentile-band pipeline)
    and [src/preprocessing_timeseries.py] (parametric z-band pipeline).

    Numbers.  The Python code computes on IEEE doubles.  Here a finite double
    is an exact rational ([Q], compared with [==]); a missing cell (NaN) is
    [None].  Rounding and infinities are outside the model.  Square roots
    (standard deviations) are taken through a function that the development
    is parametric in.

    Names.  Functions keep their Python names.  The Cyrillic column names
    and string values are transliterated: [klyuch_klienta] is the client
    key, [oboroty] the turnover columns, [vozrast] the age,
    [koncentraciya] the concentration, [tranzakcii_kol] the activity count,
    [kogorta] the cohort, [tip] and [prioritet] the type and priority of an
    anomaly, [otklonenie_pct] its deviation, [obshchij_oborot] the total
    turnover of a row. *)

From Stdlib Require Import String.
From Stdlib Require Import List ZArith QArith Qround Qabs Qminmax Qpower Lqa Lia
  Bool Sorted Permutation.
Import ListNotations.
Open Scope Q_scope.

(** ** Arrays of doubles *)

Module Np.

Definition Qltb (x y : Q) : bool := negb (Qle_bool y x).

(** [a[a > 0]] on an array that may hold NaN: a comparison with NaN is
    false, so missing cells are dropped together with the non-positive ones. *)
Definition positive (a : list (option Q)) : list Q :=
  flat_map (fun c => match c with
                     | Some v => if Qltb 0 v then [v] else []
                     | None => []
                     end) a.

Fixpoint sum (a : list Q) : Q :=
  match a with
  | [] => 0
  | x :: t => x + sum t
  end.

Definition len (a : list Q) : Q := inject_Z (Z.of_nat (length a)).

Definition mean (a : list Q) : Q := sum a / len a.

Fixpoint insert (x : Q) (s : list Q) : list Q :=
  match s with
  | [] => [x]
  | y :: t => if Qle_bool x y then x :: s else y :: insert x t
  end.

(** [np.sort]: the array in ascending order. *)
Fixpoint sort (a : list Q) : list Q :=
  match a with
  | [] => []
  | x :: t => insert x (sort t)
  end.

Definition item (s : list Q) (i : nat) : Q := nth i s 0.

(** Linear interpolation in a sorted array at a fractional index: the index
    is split into its floor and its fractional part, and the upper neighbour
    is clipped to the last position. *)
Definition lerp_at (s : list Q) (virtual_index : Q) : Q :=
  let previous := Qfloor virtual_index in
  let gamma := virtual_index - inject_Z previous in
  let lo := item s (Z.to_nat previous) in
  let hi := item s (Nat.min (Z.to_nat previous + 1) (length s - 1)) in
  lo + gamma * (hi - lo).

(** [np.percentile(a, q)], default (linear) method: the value at the
    virtual index [(n-1) * q/100] of the sorted array. *)
Definition percentile (a : list Q) (q : Q) : Q :=
  let s := sort a in
  lerp_at s (inject_Z (Z.of_nat (length s) - 1) * (q / 100)).

(** [np.median]: the middle order statistic, or the mean of the two middle
    ones when the length is even. *)
Definition median (a : list Q) : Q :=
  let s := sort a in
  let n := length s in
  if Nat.even n
  then (item s (n / 2 - 1) + item s (n / 2)) / 2
  else item s (n / 2).

(** Population variance ([ddof = 0]); [ndarray.std] is its square root. *)
Definition var (a : list Q) : Q :=
  let m := mean a in
  sum (map (fun x => (x - m) * (x - m)) a) / len a.

(** Sample variance ([ddof = 1], the pandas default). *)
Definition var1 (a : list Q) : Q :=
  let m := mean a in
  sum (map (fun x => (x - m) * (x - m)) a) / (len a - 1).

(** The three largest values ([np.sort(a)[-3:]]). *)
Definition last3 (s : list Q) : list Q := skipn (length s - 3) s.

(** [Series.unique()]: the distinct values in order of first appearance. *)
Fixpoint unique (l : list Z) : list Z :=
  match l with
  | [] => []
  | x :: t => x :: filter (fun y => negb (Z.eqb y x)) (unique t)
  end.

(** Round half to even, as [rint]; [round2] is [.round(2)]. *)
Definition rint (x : Q) : Z :=
  let f := Qfloor x in
  match Qcompare (x - inject_Z f) (1 # 2) with
  | Lt => f
  | Gt => (f + 1)%Z
  | Eq => if Z.even f then f else (f + 1)%Z
  end.

Definition round2 (x : Q) : Q := inject_Z (rint (x * 100)) / 100.

End Np.

(** ** Exceptions *)

Inductive exn : Type :=
| KeyError (key : string)
| ValueError (msg : string)
| OSError (path : string).

Inductive res (A : Type) : Type :=
| Ok (a : A)
| Raise (e : exn).
Arguments Ok {A} a.
Arguments Raise {A} e.

(** ** The input extract *)

(** One row of the extract: a client in one reporting period.  [oboroty]
    holds the cells of the columns whose name starts with the turnover
    prefix, in column order; cashback and activation columns feed neither
    the baseline nor the anomaly test and are left out. *)
Record Row : Type := mkRow {
  klyuch_klienta : Z;
  oboroty : list (option Q);
  vozrast : option Q
}.

Definition DataFrame := list Row.

(** ** preprocessing.py: the percentile-band pipeline *)

Module Preprocessing.

(** A row of the baseline table (one dictionary of [baseline_stats]).  The
    region column is a constant string and is left out; [b_vozrast] is the
    only column that can hold NaN. *)
Record Baseline : Type := mkBaseline {
  b_klyuch_klienta : Z;
  oborot_mean : Q;
  oborot_std : Q;
  cv : Q;
  ci_lower : Q;
  ci_upper : Q;
  tranzakcii_kol : nat;
  koncentraciya : Q;
  b_vozrast : option Q
}.

(** The anomaly type and priority strings. *)
Inductive Tip : Type :=
| vysokie_rashody   (* high spending *)
| nizkie_rashody.   (* low spending *)

Inductive Prioritet : Type :=
| vysokij   (* high *)
| srednij.  (* medium *)

(** A row of the anomalies table.  The expected range is rendered by the
    code as a string of the two bounds; the bounds themselves are kept. *)
Record Anomaly : Type := mkAnomaly {
  a_klyuch_klienta : Z;
  tip : Tip;
  tekushchij_oborot : Q;
  ozhidaemyj_diapazon : Q * Q;
  otklonenie_pct : Q;
  prioritet : Prioritet
}.

(** A baseline row with its cohort label, and a row of the cohort profiles. *)
Record Segmented : Type := mkSegmented {
  s_baseline : Baseline;
  kogorta : nat
}.

Record CohortProfile : Type := mkCohortProfile {
  p_kogorta : nat;
  razmer_kogorty : nat;
  srednij_oborot : Q;
  mediana_oborota : Q;
  volatilnost_oborota : option Q;
  srednij_cv : Q;
  srednyaya_koncentraciya : Q;
  srednie_tranzakcii : Q;
  srednij_vozrast : option Q
}.

(** [df[df[key] == client_id]] *)
Definition client_data (df : DataFrame) (client_id : Z) : DataFrame :=
  filter (fun r => Z.eqb (klyuch_klienta r) client_id) df.

(** The flattened turnover cells of a client, positive ones only. *)
Definition client_oborots (df : DataFrame) (client_id : Z) : list Q :=
  Np.positive (flat_map oboroty (client_data df client_id)).

Definition first_vozrast (d : DataFrame) : option Q :=
  match d with
  | r :: _ => vozrast r
  | [] => None
  end.

(** The three output files, and the part of the file system the writer
    touches: what each path holds, and the paths the process is refused to
    create or write. *)
Inductive Csv : Type :=
| baseline_csv (t : list Segmented)
| anomalies_csv (t : list Anomaly)
| cohort_profiles_csv (t : list CohortProfile).

Record FS : Type := mkFS {
  content : string -> option Csv;
  denied : string -> bool
}.

(** Computations that read and write the file system and may raise; the
    state reached when an exception is raised is kept. *)
Definition IO (A : Type) : Type := FS -> res A * FS.

Definition ret {A} (a : A) : IO A := fun fs => (Ok a, fs).

Definition lift {A} (r : res A) : IO A := fun fs => (r, fs).

Definition bind {A B} (m : IO A) (k : A -> IO B) : IO B :=
  fun fs => match m fs with
            | (Ok a, fs') => k a fs'
            | (Raise e, fs') => (Raise e, fs')
            end.

Notation "x <- m ;; k" := (bind m (fun x => k))
  (at level 61, m at next level, right associativity).

Definition makedirs (dir : string) : IO unit :=
  fun fs => if denied fs dir then (Raise (OSError dir), fs) else (Ok tt, fs).

Definition write (path : string) (c : Csv) (fs : FS) : FS :=
  {| content := fun p => if String.eqb p path then Some c else content fs p;
     denied := denied fs |}.

Definition to_csv (path : string) (c : Csv) : IO unit :=
  fun fs =>
    if denied fs path then (Raise (OSError path), fs)
    else (Ok tt, write path c fs).

Definition save_results (baseline_df : list Segmented) (anomalies_df : list Anomaly)
    (cohort_profiles : list CohortProfile) (output_dir : string) : IO unit :=
  _ <- makedirs output_dir ;;
  _ <- to_csv (output_dir ++ "/client_baseline.csv") (baseline_csv baseline_df) ;;
  _ <- to_csv (output_dir ++ "/anomalies.csv") (anomalies_csv anomalies_df) ;;
  to_csv (output_dir ++ "/cohort_profiles.csv") (cohort_profiles_csv cohort_profiles).

(** The feature vector of a client. *)
Definition features (b : Baseline) : list Q :=
  [oborot_mean b; cv b; koncentraciya b; inject_Z (Z.of_nat (tranzakcii_kol b))].

Definition column (X : list (list Q)) (j : nat) : list Q :=
  map (fun x => nth j x 0) X.

(** The cohort labels that occur, in ascending order (the group keys). *)
Definition cohort_ids (t : list Segmented) : list nat :=
  let labels := map kogorta t in
  filter (fun l => existsb (Nat.eqb l) labels) (seq 0 (S (list_max labels))).

(** [Series.mean()] on a column that may hold NaN: NaN cells are skipped. *)
Definition nanmean (a : list (option Q)) : option Q :=
  match flat_map (fun c => match c with Some v => [v] | None => [] end) a with
  | [] => None
  | v :: t => Some (Np.mean (v :: t))
  end.

(** The row of the baseline table that the detector reads for a client:
    the first one carrying the client's key. *)
Definition lookup (baseline_df : list Baseline) (client_id : Z) : option Baseline :=
  hd_error (filter (fun b => Z.eqb (b_klyuch_klienta b) client_id) baseline_df).

Section WithLibraries.

(** Square root on doubles, and scikit-learn's
    [AgglomerativeClustering(n_clusters, linkage='ward').fit_predict]. *)
Variable fsqrt : Q -> Q.
Variable fit_predict : nat -> list (list Q) -> res (list nat).

(** The body of the loop over clients: [None] is [continue].  The test for
    a NaN mean or deviation cannot fire on finite values and is dropped. *)
Definition client_baseline (df : DataFrame) (client_id : Z) : option Baseline :=
  let oborots := client_oborots df client_id in
  match oborots with
  | [] => None
  | _ :: _ =>
    let mean_oborot := Np.mean oborots in
    let median_oborot := Np.median oborots in
    let std_oborot := fsqrt (Np.var oborots) in
    let ci_lower := Np.percentile oborots 15 in
    let ci_upper := Np.percentile oborots 85 in
    let q75 := Np.percentile oborots 65 in
    let q25 := Np.percentile oborots 35 in
    let iqr := q75 - q25 in
    let cv := if Np.Qltb 0 median_oborot then iqr / median_oborot else 0 in
    let all_spending := client_oborots df client_id in
    let concentration :=
      if (0 <? length all_spending)%nat
      then
        let top3_sum :=
          if (3 <=? length all_spending)%nat
          then Np.sum (Np.last3 (Np.sort all_spending))
          else Np.sum all_spending in
        top3_sum / Np.sum all_spending
      else 0 in
    let transactions := length oborots in
    Some {| b_klyuch_klienta := client_id;
            oborot_mean := mean_oborot;
            oborot_std := std_oborot;
            cv := cv;
            ci_lower := ci_lower;
            ci_upper := ci_upper;
            tranzakcii_kol := transactions;
            koncentraciya := concentration;
            b_vozrast := first_vozrast (client_data df client_id) |}
  end.

Definition baseline_stats (df : DataFrame) : list Baseline :=
  flat_map (fun client_id =>
              match client_baseline df client_id with
              | Some b => [b]
              | None => []
              end)
           (Np.unique (map klyuch_klienta df)).

(** [DataFrame.dropna()]: rows with a NaN cell are removed. *)
Definition dropna (t : list Baseline) : list Baseline :=
  filter (fun b => match b_vozrast b with Some _ => true | None => false end) t.

(** A frame built from an empty list of dictionaries has no columns, and
    the summary printed after the loop indexes the mean column: with no
    row collected the function ends in a [KeyError]. *)
Definition calculate_client_baseline (df : DataFrame) : res (list Baseline) :=
  match baseline_stats df with
  | [] => Raise (KeyError "oborot_mean")
  | stats => Ok (dropna stats)
  end.

(** The body of the loop over the rows of the extract. *)
Definition row_anomaly (baseline_df : list Baseline) (row : Row) : option Anomaly :=
  let client_id := klyuch_klienta row in
  let oborots := Np.positive (oboroty row) in
  match oborots with
  | [] => None
  | _ :: _ =>
    let current_oborot := Np.mean oborots in
    match filter (fun b => Z.eqb (b_klyuch_klienta b) client_id) baseline_df with
    | [] => None
    | baseline :: _ =>
      let ci_lower := ci_lower baseline in
      let ci_upper := ci_upper baseline in
      let mean_oborot := oborot_mean baseline in
      let is_anomaly := Np.Qltb current_oborot ci_lower || Np.Qltb ci_upper current_oborot in
      let deviation_pct := ((current_oborot - mean_oborot) / (mean_oborot + 1)) * 100 in
      if is_anomaly
      then Some {| a_klyuch_klienta := client_id;
                   tip := if Np.Qltb ci_upper current_oborot
                          then vysokie_rashody else nizkie_rashody;
                   tekushchij_oborot := current_oborot;
                   ozhidaemyj_diapazon := (ci_lower, ci_upper);
                   otklonenie_pct := Qabs deviation_pct;
                   prioritet := if Np.Qltb 30 (Qabs deviation_pct)
                                then vysokij else srednij |}
      else None
    end
  end.

Definition identify_anomalies (df : DataFrame) (baseline_df : list Baseline) : list Anomaly :=
  flat_map (fun row => match row_anomaly baseline_df row with
                       | Some a => [a]
                       | None => []
                       end) df.


(** [StandardScaler().fit_transform]: a column of zero deviation is scaled
    by one. *)
Definition standard_scale (X : list (list Q)) : list (list Q) :=
  let mean_ j := Np.mean (column X j) in
  let scale_ j := let s := fsqrt (Np.var (column X j)) in
                  if Qeq_bool s 0 then 1 else s in
  map (fun x => map (fun j => (nth j x 0 - mean_ j) / scale_ j) (seq 0 4)) X.

(** No feature is NaN once [dropna] has run, so the two imputations and the
    row filter after scaling change nothing.  The scaler refuses an empty
    frame, and assigning a label column of the wrong length is refused. *)
Definition segment_clients_hierarchical (baseline_df : list Baseline) (max_cohorts : nat)
  : res (list Segmented) :=
  match baseline_df with
  | [] => Raise (ValueError "Found array with 0 sample(s)")
  | _ :: _ =>
    let features_scaled := standard_scale (map features baseline_df) in
    match fit_predict max_cohorts features_scaled with
    | Raise e => Raise e
    | Ok labels =>
      if (length labels =? length baseline_df)%nat
      then Ok (map (fun bl => mkSegmented (fst bl) (snd bl)) (combine baseline_df labels))
      else Raise (ValueError "Length of values does not match length of index")
    end
  end.

(** The sample deviation of a group; NaN for a group of one. *)
Definition group_std (a : list Q) : option Q :=
  if (length a <? 2)%nat then None else Some (fsqrt (Np.var1 a)).

Definition cohort_profile (baseline_df : list Segmented) (cohort_id : nat) : CohortProfile :=
  let members := map s_baseline
                     (filter (fun r => Nat.eqb (kogorta r) cohort_id) baseline_df) in
  {| p_kogorta := cohort_id;
     razmer_kogorty := length members;
     srednij_oborot := Np.round2 (Np.mean (map oborot_mean members));
     mediana_oborota := Np.round2 (Np.median (map oborot_mean members));
     volatilnost_oborota := option_map Np.round2 (group_std (map oborot_mean members));
     srednij_cv := Np.round2 (Np.mean (map cv members));
     srednyaya_koncentraciya := Np.round2 (Np.mean (map koncentraciya members));
     srednie_tranzakcii :=
       Np.round2 (Np.mean (map (fun b => inject_Z (Z.of_nat (tranzakcii_kol b))) members));
     srednij_vozrast := option_map Np.round2 (nanmean (map b_vozrast members)) |}.

(** [groupby(cohort).agg(...)]: one row per cohort label that occurs. *)
Definition calculate_cohort_profiles (baseline_df : list Segmented) : list CohortProfile :=
  map (cohort_profile baseline_df) (cohort_ids baseline_df).

(** [main], given what [load_data] returned.  Every exception is caught at
    the end and turns into the result [false]. *)
Definition main (load_data : res DataFrame) (fs : FS) : bool * FS :=
  let body : IO bool :=
    df <- lift load_data ;;
    baseline_df <- lift (calculate_client_baseline df) ;;
    if (length baseline_df =? 0)%nat then ret false
    else
      let anomalies_df := identify_anomalies df baseline_df in
      baseline_df <- lift (segment_clients_hierarchical baseline_df 8) ;;
      let cohort_profiles := calculate_cohort_profiles baseline_df in
      _ <- save_results baseline_df anomalies_df cohort_profiles "./data" ;;
      ret true in
  match body fs with
  | (Ok success, fs') => (success, fs')
  | (Raise _, fs') => (false, fs')
  end.

(** The three tables a run hands to the writer: [None] when the run stops
    before the writer is called, by an exception or by the early return on
    an empty baseline table. *)
Definition tables (load_data : res DataFrame)
  : option (list Segmented * list Anomaly * list CohortProfile) :=
  match load_data with
  | Raise _ => None
  | Ok df =>
    match calculate_client_baseline df with
    | Raise _ => None
    | Ok baseline_df =>
      if (length baseline_df =? 0)%nat then None
      else
        match segment_clients_hierarchical baseline_df 8 with
        | Raise _ => None
        | Ok segmented =>
          Some (segmented, identify_anomalies df baseline_df,
                calculate_cohort_profiles segmented)
        end
    end
  end.

End WithLibraries.

(** What the pipeline relies on from the clustering: the labels it returns
    are one per sample and below the requested number of clusters, and it
    returns labels whenever there are at least two samples and the requested
    number is between one and the number of samples. *)
Definition clustering_contract (fit_predict : nat -> list (list Q) -> res (list nat))
  : Prop :=
  (forall k X labels,
     fit_predict k X = Ok labels ->
     length labels = length X /\ Forall (fun l => (l < k)%nat) labels) /\
  (forall k X,
     (2 <= length X)%nat -> (1 <= k)%nat -> (k <= length X)%nat ->
     exists labels, fit_predict k X = Ok labels).

End Preprocessing.

(** ** preprocessing_timeseries.py: the parametric z-band pipeline *)

Module Timeseries.

(** [stats.norm.ppf(0.95)], as the double prints. *)
Definition z_score : Q := 16448536269514722 # 10000000000000000.

(** [df[cols].sum(axis=1)]: NaN cells are skipped. *)
Definition nansum (a : list (option Q)) : Q :=
  Np.sum (flat_map (fun c => match c with Some v => [v] | None => [] end) a).

(** A row of the extract once the total-turnover column has been added. *)
Record TRow : Type := mkTRow {
  t_row : Row;
  obshchij_oborot : Q
}.

(** A row of the client statistics (region, city and gender left out). *)
Record ClientStats : Type := mkClientStats {
  s_klyuch_klienta : Z;
  oborot_mean : Q;
  oborot_std : Q;
  oborot_min : Q;
  oborot_max : Q;
  periodov : nat;
  s_vozrast : option Q;
  ci_lower : Q;
  ci_upper : Q;
  cv : Q
}.

(** A row of the merged frame returned by the anomaly step. *)
Record RowCI : Type := mkRowCI {
  m_row : TRow;
  m_ci_lower : Q;
  m_ci_upper : Q;
  m_oborot_mean : Q;
  m_cv : Q;
  is_anomaly : Z;
  deviation_pct : Q
}.

Fixpoint Zinsert (x : Z) (l : list Z) : list Z :=
  match l with
  | [] => [x]
  | y :: t => if (x <? y)%Z then x :: l
              else if (x =? y)%Z then l
              else y :: Zinsert x t
  end.

(** The group keys of [groupby]: the distinct client keys, ascending. *)
Definition group_keys (l : list Z) : list Z := fold_right Zinsert [] l.

Definition min_of (x : Q) (a : list Q) : Q := fold_left Qmin a x.
Definition max_of (x : Q) (a : list Q) : Q := fold_left Qmax a x.

(** The [first] aggregation: the first cell of the group that is not NaN. *)
Fixpoint first_valid (a : list (option Q)) : option Q :=
  match a with
  | [] => None
  | Some v :: _ => Some v
  | None :: t => first_valid t
  end.

Definition add_total (df : DataFrame) : list TRow :=
  map (fun r => mkTRow r (nansum (oboroty r))) df.

Section WithSqrt.

Variable fsqrt : Q -> Q.

(** The sample deviation of a group ([ddof = 1]): NaN for a single period. *)
Definition group_std (a : list Q) : option Q :=
  if (length a <? 2)%nat then None else Some (fsqrt (Np.var1 a)).

Definition fillna0 (x : option Q) : Q :=
  match x with
  | Some v => v
  | None => 0
  end.

Definition client_statistics (df : list TRow) (client_id : Z) : list ClientStats :=
  let group := filter (fun r => Z.eqb (klyuch_klienta (t_row r)) client_id) df in
  match map obshchij_oborot group with
  | [] => []
  | x :: t =>
    let mean := Np.mean (x :: t) in
    let std := fillna0 (group_std (x :: t)) in
    [ {| s_klyuch_klienta := client_id;
         oborot_mean := mean;
         oborot_std := std;
         oborot_min := min_of x t;
         oborot_max := max_of x t;
         periodov := length (x :: t);
         s_vozrast := first_valid (map (fun r => vozrast (t_row r)) group);
         ci_lower := Qmax (mean - z_score * std) 0;
         ci_upper := mean + z_score * std;
         cv := std / (mean + 1) |} ]
  end.

(** The function adds the total-turnover column to the frame it is given;
    the caller's frame is that same object, so the frame with the column is
    returned next to the statistics. *)
Definition calculate_client_statistics (df : DataFrame) : list TRow * list ClientStats :=
  let df' := add_total df in
  (df', flat_map (client_statistics df') (group_keys (map klyuch_klienta df))).

End WithSqrt.

(** The inner merge on the client key, then the flag and the deviation. *)
Definition calculate_anomaly_metrics (df : list TRow) (client_stats : list ClientStats)
  : list RowCI :=
  flat_map
    (fun r =>
       map (fun s =>
              {| m_row := r;
                 m_ci_lower := ci_lower s;
                 m_ci_upper := ci_upper s;
                 m_oborot_mean := oborot_mean s;
                 m_cv := cv s;
                 is_anomaly :=
                   Z.b2z (Np.Qltb (obshchij_oborot r) (ci_lower s)
                          || Np.Qltb (ci_upper s) (obshchij_oborot r));
                 deviation_pct :=
                   (obshchij_oborot r - oborot_mean s) / (oborot_mean s + 1) * 100 |})
           (filter (fun s => Z.eqb (s_klyuch_klienta s) (klyuch_klienta (t_row r)))
                   client_stats))
    df.

(** The rows written to the anomalies file. *)
Definition anomalies (df_with_ci : list RowCI) : list RowCI :=
  filter (fun r => Z.eqb (is_anomaly r) 1) df_with_ci.

End Timeseries.

(** ** A model of Ward agglomerative clustering

    The clustering comes from scikit-learn.  This is the procedure it
    documents: every sample starts as its own cluster, the two clusters whose
    merge increases the within-cluster variance least are merged, and merging
    stops at the requested number of clusters.  Clusters are kept as one
    label per sample, the labels in use always being [0 .. m-1]. *)

Module Ward.

Definition members (labels : list nat) (c : nat) : list nat :=
  filter (fun i => Nat.eqb (nth i labels 0%nat) c) (seq 0 (length labels)).

Definition dim (X : list (list Q)) : nat := length (hd [] X).

Definition centroid (X : list (list Q)) (c : list nat) : list Q :=
  map (fun j => Np.mean (map (fun i => nth j (nth i X []) 0) c)) (seq 0 (dim X)).

Definition sqdist (u v : list Q) : Q :=
  Np.sum (map (fun p => (fst p - snd p) * (fst p - snd p)) (combine u v)).

Definition size (c : list nat) : Q := inject_Z (Z.of_nat (length c)).

(** The increase in within-cluster variance when two clusters merge. *)
Definition cost (X : list (list Q)) (labels : list nat) (p : nat * nat) : Q :=
  let a := members labels (fst p) in
  let b := members labels (snd p) in
  (size a * size b / (size a + size b)) * sqdist (centroid X a) (centroid X b).

Definition pairs (m : nat) : list (nat * nat) :=
  flat_map (fun i => map (pair i) (seq (S i) (m - S i))) (seq 0 m).

Fixpoint argmin (f : nat * nat -> Q) (best : nat * nat) (ps : list (nat * nat))
  : nat * nat :=
  match ps with
  | [] => best
  | p :: t => argmin f (if Np.Qltb (f p) (f best) then p else best) t
  end.

Definition relabel (a b l : nat) : nat :=
  if Nat.eqb l b then a else if Nat.ltb b l then (l - 1)%nat else l.

Definition merge_step (X : list (list Q)) (st : list nat * nat) : list nat * nat :=
  let (labels, m) := st in
  match pairs m with
  | [] => st
  | p :: ps =>
    let ab := argmin (cost X labels) p ps in
    (map (relabel (fst ab) (snd ab)) labels, (m - 1)%nat)
  end.

Definition fit_predict (n_clusters : nat) (X : list (list Q)) : res (list nat) :=
  let n := length X in
  if (n <? 2)%nat then Raise (ValueError "at least 2 samples are required")
  else if (n_clusters =? 0)%nat then Raise (ValueError "n_clusters must be positive")
  else if (n <? n_clusters)%nat
       then Raise (ValueError "Cannot extract more clusters than samples")
  else Ok (fst (Nat.iter (n - n_clusters) (merge_step X) (seq 0 n, n))).

(** The invariant of the merging loop: one label per sample, every label
    below the number of clusters in use. *)
Definition labelled (n : nat) (st : list nat * nat) : Prop :=
  length (fst st) = n /\ Forall (fun l => (l < snd st)%nat) (fst st).

End Ward.

(** A square root for the worked examples: exact to six decimals. *)
Definition sqrt6 (x : Q) : Q :=
  inject_Z (Z.sqrt (Qfloor (x * 1000000000000))) / 1000000.

(** ** Worked extracts *)

Module Examples.

Definition period (client_id : Z) (cells : list Q) : Row :=
  mkRow client_id (map Some cells) (Some 30).

(** One client, eight periods, one category: seven periods at 100 and one
    at 1000. *)
Definition df_outlier : DataFrame :=
  map (fun v => period 1 [v]) [100; 100; 100; 100; 100; 100; 100; 1000].

(** One client, two periods, two categories, one unit spent in each cell. *)
Definition df_two_by_two : DataFrame := [period 1 [1; 1]; period 1 [1; 1]].

(** One client, two periods, one category: 10, then 100. *)
Definition df_low : DataFrame := [period 1 [10]; period 1 [100]].

(** One client whose only cell is zero. *)
Definition df_idle : DataFrame := [period 1 [0]].


(** One client, one period, five units. *)
Definition df_single : DataFrame := [period 1 [5]].

(** Nine clients, one period each, two categories. *)
Definition df_nine : DataFrame :=
  map (fun i => period (Z.of_nat i) [inject_Z (Z.of_nat (i * i + 1)); 3]) (seq 1 9).

Definition fs_empty : Preprocessing.FS :=
  Preprocessing.mkFS (fun _ => None) (fun _ => false).

(** The anomalies file cannot be written. *)
Definition fs_anomalies_denied : Preprocessing.FS :=
  Preprocessing.mkFS (fun _ => None) (fun p => String.eqb p "./data/anomalies.csv").

(** Files left over from an earlier run. *)
Definition fs_stale : Preprocessing.FS :=
  Preprocessing.mkFS (fun _ => Some (Preprocessing.anomalies_csv [])) (fun _ => false).

(** One idle client and one client with a single purchase. *)
Definition df_idle_and_active : DataFrame := [period 1 [0]; period 2 [5]].

(** The baseline table of an extract, empty when the calculator raises. *)
Definition baseline_of (df : DataFrame) : list Preprocessing.Baseline :=
  match Preprocessing.calculate_client_baseline sqrt6 df with
  | Ok t => t
  | Raise _ => []
  end.

Definition blank : Preprocessing.Baseline :=
  Preprocessing.mkBaseline 0 0 0 0 0 0 0 0 None.

Definition first_baseline (df : DataFrame) : Preprocessing.Baseline :=
  hd blank (baseline_of df).

End Examples.

(** ** preprocessing_timeseries.py: the report *)

Module TimeseriesReport.
Import Timeseries.

(** The four counts that [generate_report] prints: clients of high and of
    low volatility, and the flagged rows above and below the band. *)
Record Report : Type := mkReport {
  high_cv : nat;
  stable : nat;
  anomalies_high : nat;
  anomalies_low : nat
}.

Definition generate_report (client_stats : list ClientStats)
    (df_with_anomalies : list RowCI) : Report :=
  {| high_cv := length (filter (fun s => Np.Qltb (5 # 10) (cv s)) client_stats);
     stable := length (filter (fun s => Np.Qltb (cv s) (2 # 10)) client_stats);
     anomalies_high :=
       length (filter (fun r => Z.eqb (is_anomaly r) 1
                                && Np.Qltb (m_ci_upper r) (obshchij_oborot (m_row r)))
                      df_with_anomalies);
     anomalies_low :=
       length (filter (fun r => Z.eqb (is_anomaly r) 1
                                && Np.Qltb (obshchij_oborot (m_row r)) (m_ci_lower r))
                      df_with_anomalies) |}.

End TimeseriesReport.

(** ** The dashboards: the forecast scenarios

    Both dashboards read one row of the baseline table and compute, for
    each month [0 .. months], a forecast of the mean, of the volatility and
    of the band.  The growth and the volatility change are whole percents
    picked on a slider. *)

Module AppFinal.

Record Scenario : Type := mkScenario {
  mesyac : nat;
  oborot : Q;
  volatilnost : Q;
  ci_lower : Q;
  ci_upper : Q
}.

(** The body of the loop of app_final.py: the band keeps the half-width of
    the baseline band, scaled by the change of volatility, around the
    forecast mean. *)
Definition scenario (client : Preprocessing.Baseline) (growth_rate volatility_change : Z)
    (m : nat) : Scenario :=
  let current_mean := Preprocessing.oborot_mean client in
  let current_cv := Preprocessing.cv client in
  let current_ci_lower := Preprocessing.ci_lower client in
  let current_ci_upper := Preprocessing.ci_upper client in
  let mean_forecast := current_mean * (1 + inject_Z growth_rate / 100) ^ Z.of_nat m in
  let cv_forecast :=
    Qmax 0 (current_cv * (1 + inject_Z volatility_change / 100) ^ Z.of_nat m) in
  let ci_lower_forecast :=
    if Np.Qltb 0 current_cv
    then mean_forecast
         - (current_ci_upper - current_ci_lower) / 2 * (cv_forecast / current_cv)
    else Qmax 0 (mean_forecast * (8 # 10)) in
  let ci_upper_forecast :=
    if Np.Qltb 0 current_cv
    then mean_forecast
         + (current_ci_upper - current_ci_lower) / 2 * (cv_forecast / current_cv)
    else mean_forecast * (12 # 10) in
  let ci_lower_forecast := Qmax 0 ci_lower_forecast in
  {| mesyac := m;
     oborot := mean_forecast;
     volatilnost := cv_forecast;
     ci_lower := ci_lower_forecast;
     ci_upper := ci_upper_forecast |}.

Definition scenarios (client : Preprocessing.Baseline) (growth_rate volatility_change : Z)
    (months : nat) : list Scenario :=
  map (scenario client growth_rate volatility_change) (seq 0 (months + 1)).

End AppFinal.

Module AppMain.

(** The body of the loop of main.py: a z-band around the forecast mean,
    the volatility standing in for the relative deviation. *)
Definition scenario (client : Preprocessing.Baseline) (growth_rate volatility_change : Z)
    (m : nat) : AppFinal.Scenario :=
  let current_mean := Preprocessing.oborot_mean client in
  let current_cv := Preprocessing.cv client in
  let mean_forecast := current_mean * (1 + inject_Z growth_rate / 100) ^ Z.of_nat m in
  let cv_forecast := current_cv * (1 + inject_Z volatility_change / 100) ^ Z.of_nat m in
  let ci_lower_forecast := Qmax 0 (mean_forecast * (1 - (1645 # 1000) * cv_forecast)) in
  let ci_upper_forecast := mean_forecast * (1 + (1645 # 1000) * cv_forecast) in
  {| AppFinal.mesyac := m;
     AppFinal.oborot := mean_forecast;
     AppFinal.volatilnost := cv_forecast;
     AppFinal.ci_lower := ci_lower_forecast;
     AppFinal.ci_upper := ci_upper_forecast |}.

Definition scenarios (client : Preprocessing.Baseline) (growth_rate volatility_change : Z)
    (months : nat) : list AppFinal.Scenario :=
  map (scenario client growth_rate volatility_change) (seq 0 (months + 1)).

End AppMain.

(** ** More worked data *)

Module MoreExamples.
Import Examples.

(** The baseline table of the two-period client, and the same table with
    every band widened by one unit on each side. *)
Definition t_low : list Preprocessing.Baseline := baseline_of df_low.

Definition widen (b : Preprocessing.Baseline) : Preprocessing.Baseline :=
  Preprocessing.mkBaseline
    (Preprocessing.b_klyuch_klienta b) (Preprocessing.oborot_mean b)
    (Preprocessing.oborot_std b) (Preprocessing.cv b)
    (Preprocessing.ci_lower b - 1) (Preprocessing.ci_upper b + 1)
    (Preprocessing.tranzakcii_kol b) (Preprocessing.koncentraciya b)
    (Preprocessing.b_vozrast b).

Definition t_low_wide : list Preprocessing.Baseline := map widen t_low.

(** The outlier client, alone in cohort 0. *)
Definition seg_outlier : list Preprocessing.Segmented :=
  map (fun b => Preprocessing.mkSegmented b 0) (baseline_of df_outlier).

Definition profile_outlier : Preprocessing.CohortProfile :=
  Preprocessing.cohort_profile sqrt6 seg_outlier 0.

(** Two feature vectors. *)
Definition X_two : list (list Q) := [[1; 2; 3; 4]; [3; 2; 1; 0]].

Definition blank_stats : Timeseries.ClientStats :=
  Timeseries.mkClientStats 0 0 0 0 0 0 None 0 0 0.

(** The statistics of the two-period client. *)
Definition stats_low : Timeseries.ClientStats :=
  hd blank_stats (snd (Timeseries.calculate_client_statistics sqrt6 df_low)).

End MoreExamples.

(** ** Vocabulary of the statements *)

Module Vocabulary.
Import Preprocessing.

(** A baseline table whose bands are, client by client, at least as narrow
    as those of a second table with the same clients in the same order. *)
Definition narrower (t1 t2 : list Baseline) : Prop :=
  Forall2 (fun b1 b2 => b_klyuch_klienta b1 = b_klyuch_klienta b2 /\
                        ci_lower b2 <= ci_lower b1 /\ ci_upper b1 <= ci_upper b2)
          t1 t2.

(** The baseline rows that carry a cohort label. *)
Definition members_of (t : list Segmented) (cohort_id : nat) : list Baseline :=
  map s_baseline (filter (fun r => Nat.eqb (kogorta r) cohort_id) t).

End Vocabulary.

(** * Properties *)

(** ** Facts about arrays *)

Section ArrayFacts.
Import Np.

Lemma Qltb_lt x y : Qltb x y = true <-> x < y.
Proof.
  unfold Qltb. rewrite negb_true_iff. split; intro H.
  - destruct (Qlt_le_dec x y) as [L|L]; [exact L|].
    apply Qle_bool_iff in L. congruence.
  - destruct (Qle_bool y x) eqn:E; [|reflexivity].
    apply Qle_bool_iff in E. lra.
Qed.

Lemma Qltb_ge x y : Qltb x y = false <-> y <= x.
Proof.
  unfold Qltb. rewrite negb_false_iff. apply Qle_bool_iff.
Qed.

Lemma positive_spec a v : In v (positive a) <-> In (Some v) a /\ 0 < v.
Proof.
  unfold positive. rewrite in_flat_map. split.
  - intros [c [Hc Hv]]. destruct c as [w|]; [|contradiction].
    destruct (Qltb 0 w) eqn:E; [|contradiction].
    destruct Hv as [<-|[]]. split; [exact Hc|now apply Qltb_lt].
  - intros [Hc Hv]. exists (Some v). split; [exact Hc|].
    apply Qltb_lt in Hv. rewrite Hv. now left.
Qed.

Lemma positive_pos a : Forall (fun v => 0 < v) (positive a).
Proof. apply Forall_forall. intros v H. now apply positive_spec in H. Qed.

Lemma positive_app a b : positive (a ++ b) = positive a ++ positive b.
Proof. unfold positive. apply flat_map_app. Qed.

Lemma insert_perm x s : Permutation (x :: s) (insert x s).
Proof.
  induction s as [|y t IH]; simpl; [reflexivity|].
  destruct (Qle_bool x y); [reflexivity|].
  rewrite perm_swap. now constructor.
Qed.

Lemma sort_perm a : Permutation a (sort a).
Proof.
  induction a as [|x t IH]; simpl; [constructor|].
  rewrite <- insert_perm. now constructor.
Qed.

Lemma sort_length a : length (sort a) = length a.
Proof. symmetry. apply Permutation_length, sort_perm. Qed.

Lemma insert_sorted x s : StronglySorted Qle s -> StronglySorted Qle (insert x s).
Proof.
  induction 1 as [|y t St IH Hy]; simpl.
  - repeat constructor.
  - destruct (Qle_bool x y) eqn:E.
    + apply Qle_bool_iff in E. constructor; [now constructor|].
      constructor; [exact E|].
      eapply Forall_impl; [|exact Hy]. intros z Hz. simpl in Hz. lra.
    + assert (y <= x) as L.
      { destruct (Qlt_le_dec y x) as [L|L]; [lra|].
        apply Qle_bool_iff in L. congruence. }
      constructor; [exact IH|].
      eapply Permutation_Forall; [apply insert_perm|].
      now constructor.
Qed.

Lemma sort_sorted a : StronglySorted Qle (sort a).
Proof.
  induction a as [|x t IH]; simpl; [constructor|now apply insert_sorted].
Qed.

Lemma sorted_item_le s i j :
  StronglySorted Qle s -> (i <= j)%nat -> (j < length s)%nat ->
  item s i <= item s j.
Proof.
  unfold item. intros St. revert i j.
  induction St as [|x t St IH Hx]; intros i j Hij Hj; simpl in Hj; [lia|].
  destruct i as [|i], j as [|j]; simpl; try lia.
  - lra.
  - rewrite Forall_forall in Hx. apply Hx, nth_In. lia.
  - apply IH; lia.
Qed.

Lemma Qfloor_unique x k :
  inject_Z k <= x -> x < inject_Z (k + 1) -> Qfloor x = k.
Proof.
  intros Hl Hu.
  pose proof (Qfloor_le x) as Fl. pose proof (Qlt_floor x) as Fu.
  assert (inject_Z k < inject_Z (Qfloor x + 1)) as A by lra.
  assert (inject_Z (Qfloor x) < inject_Z (k + 1)) as B by lra.
  rewrite <- Zlt_Qlt in A, B. lia.
Qed.

Lemma Qfloor_nonneg x : 0 <= x -> (0 <= Qfloor x)%Z.
Proof.
  intro H. change 0%Z with (Qfloor 0). now apply Qfloor_resp_le.
Qed.

(** The fractional index stays inside the array. *)
Lemma floor_index (s : list Q) v :
  0 <= v -> v <= inject_Z (Z.of_nat (length s) - 1) ->
  (Z.to_nat (Qfloor v) <= length s - 1)%nat /\
  inject_Z (Z.of_nat (Z.to_nat (Qfloor v))) = inject_Z (Qfloor v).
Proof.
  intros H0 Hn.
  pose proof (Qfloor_nonneg v H0) as F0.
  pose proof (Qfloor_le v) as Fl.
  assert (inject_Z (Qfloor v) <= inject_Z (Z.of_nat (length s) - 1)) as A by lra.
  rewrite <- Zle_Qle in A.
  split; [lia|]. now rewrite Z2Nat.id.
Qed.

Lemma lerp_at_bounds s v :
  StronglySorted Qle s -> s <> [] ->
  0 <= v -> v <= inject_Z (Z.of_nat (length s) - 1) ->
  item s (Z.to_nat (Qfloor v)) <= lerp_at s v /\
  lerp_at s v <= item s (Nat.min (Z.to_nat (Qfloor v) + 1) (length s - 1)).
Proof.
  intros St Hne H0 Hn. unfold lerp_at.
  destruct (floor_index s v H0 Hn) as [Hi _].
  assert (0 < length s)%nat as Hlen by (destruct s; simpl; [congruence|lia]).
  pose proof (Qfloor_le v) as Fl. pose proof (Qlt_floor v) as Fu.
  rewrite inject_Z_plus in Fu. change (inject_Z 1) with 1 in Fu.
  set (lo := item s (Z.to_nat (Qfloor v))).
  set (hi := item s (Nat.min (Z.to_nat (Qfloor v) + 1) (length s - 1))).
  set (g := v - inject_Z (Qfloor v)).
  assert (lo <= hi) as Hd by (apply sorted_item_le; [exact St|lia|lia]).
  assert (0 <= g) as G0 by (unfold g; lra).
  assert (g <= 1) as G1 by (unfold g; lra).
  split; nra.
Qed.

Lemma lerp_at_mono s v1 v2 :
  StronglySorted Qle s -> s <> [] ->
  0 <= v1 -> v1 <= v2 -> v2 <= inject_Z (Z.of_nat (length s) - 1) ->
  lerp_at s v1 <= lerp_at s v2.
Proof.
  intros St Hne H0 H12 Hn.
  assert (0 < length s)%nat as Hlen by (destruct s; simpl; [congruence|lia]).
  assert (0 <= v2) as H02 by lra.
  assert (v1 <= inject_Z (Z.of_nat (length s) - 1)) as Hn1 by lra.
  pose proof (Qfloor_resp_le v1 v2 H12) as Hf.
  pose proof (Qfloor_nonneg v1 H0) as F1.
  destruct (floor_index s v2 H02 Hn) as [Hi2 _].
  destruct (Z.eq_dec (Qfloor v1) (Qfloor v2)) as [E|NE].
  - unfold lerp_at. rewrite E.
    set (lo := item s (Z.to_nat (Qfloor v2))).
    set (hi := item s (Nat.min (Z.to_nat (Qfloor v2) + 1) (length s - 1))).
    assert (lo <= hi) as Hd by (apply sorted_item_le; [exact St|lia|lia]).
    nra.
  - destruct (lerp_at_bounds s v1 St Hne H0 Hn1) as [_ U1].
    destruct (lerp_at_bounds s v2 St Hne H02 Hn) as [L2 _].
    assert (item s (Nat.min (Z.to_nat (Qfloor v1) + 1) (length s - 1))
            <= item s (Z.to_nat (Qfloor v2))) as M.
    { apply sorted_item_le; [exact St|lia|lia]. }
    lra.
Qed.

Lemma virtual_index_range n q :
  (0 < n)%nat -> 0 <= q -> q <= 100 ->
  0 <= inject_Z (Z.of_nat n - 1) * (q / 100) /\
  inject_Z (Z.of_nat n - 1) * (q / 100) <= inject_Z (Z.of_nat n - 1).
Proof.
  intros Hn H0 H1.
  assert (0 <= inject_Z (Z.of_nat n - 1)) as A.
  { change 0 with (inject_Z 0). rewrite <- Zle_Qle. lia. }
  set (m := inject_Z (Z.of_nat n - 1)) in *.
  assert (q / 100 == q * (1 # 100)) as E by (unfold Qdiv; reflexivity).
  rewrite E. split; nra.
Qed.

Lemma sort_nonempty a : a <> [] -> sort a <> [] /\ (0 < length (sort a))%nat.
Proof.
  intro H. assert (0 < length (sort a))%nat as L.
  { rewrite sort_length. destruct a; simpl; [congruence|lia]. }
  split; [|exact L]. intro E. rewrite E in L. simpl in L. lia.
Qed.

(** Percentiles grow with the rank. *)
Lemma percentile_mono a q1 q2 :
  a <> [] -> 0 <= q1 -> q1 <= q2 -> q2 <= 100 ->
  percentile a q1 <= percentile a q2.
Proof.
  intros Hne H0 H12 H1. unfold percentile.
  destruct (sort_nonempty a Hne) as [Hs Hl].
  destruct (virtual_index_range (length (sort a)) q1 Hl H0 ltac:(lra)) as [A1 B1].
  destruct (virtual_index_range (length (sort a)) q2 Hl ltac:(lra) H1) as [A2 B2].
  apply lerp_at_mono; try assumption; [apply sort_sorted|].
  assert (0 <= inject_Z (Z.of_nat (length (sort a)) - 1)) as A.
  { change 0 with (inject_Z 0). rewrite <- Zle_Qle. lia. }
  set (m := inject_Z (Z.of_nat (length (sort a)) - 1)) in *.
  assert (q1 / 100 == q1 * (1 # 100)) as E1 by (unfold Qdiv; reflexivity).
  assert (q2 / 100 == q2 * (1 # 100)) as E2 by (unfold Qdiv; reflexivity).
  rewrite E1, E2. nra.
Qed.

Lemma half_scale x : x * (50 / 100) == x * (1 # 2).
Proof. field. Qed.

(** [np.median] is the 50th percentile. *)
Lemma median_percentile a : a <> [] -> median a == percentile a 50.
Proof.
  intro Hne. destruct (sort_nonempty a Hne) as [_ Hl].
  unfold median, percentile, lerp_at.
  set (s := sort a) in *. set (n := length s) in *.
  set (v := inject_Z (Z.of_nat n - 1) * (50 / 100)).
  destruct (Nat.even n) eqn:Ev.
  - apply Nat.even_spec in Ev. destruct Ev as [m Hm].
    assert (v == inject_Z (Z.of_nat m) - (1 # 2)) as Hv.
    { unfold v. rewrite half_scale. replace (Z.of_nat n - 1)%Z with (2 * Z.of_nat m - 1)%Z by lia.
      unfold Zminus. rewrite inject_Z_plus, inject_Z_mult.
      change (inject_Z 2) with 2. change (inject_Z (- (1))) with (- (1)). lra. }
    assert (Qfloor v = (Z.of_nat m - 1)%Z) as Hf.
    { apply Qfloor_unique.
      - unfold Zminus. rewrite inject_Z_plus. change (inject_Z (- (1))) with (- (1)). lra.
      - replace (Z.of_nat m - 1 + 1)%Z with (Z.of_nat m) by lia. lra. }
    rewrite Hf.
    assert (n / 2 = m)%nat as Hd by (symmetry; apply (Nat.div_unique n 2 m 0); lia).
    replace (Z.to_nat (Z.of_nat m - 1)) with (n / 2 - 1)%nat by lia.
    replace (Nat.min (n / 2 - 1 + 1) (n - 1)) with (n / 2)%nat by lia.
    assert (v - inject_Z (Z.of_nat m - 1) == 1 # 2) as Hg.
    { unfold Zminus. rewrite inject_Z_plus. change (inject_Z (- (1))) with (- (1)). lra. }
    rewrite Hg. field.
  - assert (Nat.odd n = true) as Od by (rewrite <- Nat.negb_even, Ev; reflexivity).
    apply Nat.odd_spec in Od. destruct Od as [m Hm].
    assert (v == inject_Z (Z.of_nat m)) as Hv.
    { unfold v. rewrite half_scale. replace (Z.of_nat n - 1)%Z with (2 * Z.of_nat m)%Z by lia.
      rewrite inject_Z_mult. change (inject_Z 2) with 2. lra. }
    assert (Qfloor v = Z.of_nat m) as Hf.
    { apply Qfloor_unique; [lra|].
      rewrite inject_Z_plus. change (inject_Z 1) with 1. lra. }
    rewrite Hf.
    assert (n / 2 = m)%nat as Hd by (symmetry; apply (Nat.div_unique n 2 m 1); lia).
    replace (Z.to_nat (Z.of_nat m)) with (n / 2)%nat by lia.
    assert (v - inject_Z (Z.of_nat m) == 0) as Hg by lra.
    rewrite Hg. ring.
Qed.

Lemma sort_Forall (P : Q -> Prop) a : Forall P a -> Forall P (sort a).
Proof. intro H. eapply Permutation_Forall; [apply sort_perm|exact H]. Qed.

Lemma item_Forall (P : Q -> Prop) s i :
  Forall P s -> (i < length s)%nat -> P (item s i).
Proof.
  intros H Hi. rewrite Forall_forall in H. apply H. unfold item. now apply nth_In.
Qed.

(** Between its extremes, a percentile inherits what holds of every
    element below and above: here, a strict lower bound. *)
Lemma percentile_gt a q c :
  a <> [] -> 0 <= q -> q <= 100 -> Forall (fun x => c < x) a -> c < percentile a q.
Proof.
  intros Hne H0 H1 Hall. destruct (sort_nonempty a Hne) as [Hs Hl].
  unfold percentile.
  destruct (virtual_index_range (length (sort a)) q Hl H0 H1) as [A B].
  destruct (lerp_at_bounds (sort a) _ (sort_sorted a) Hs A B) as [L _].
  destruct (floor_index (sort a) _ A B) as [Hi _].
  pose proof (item_Forall _ (sort a) (Z.to_nat (Qfloor (inject_Z (Z.of_nat (length (sort a)) - 1) * (q / 100))))
                (sort_Forall _ a Hall) ltac:(lia)) as P.
  cbv beta in P. lra.
Qed.

(** On a constant array every percentile is that constant. *)
Lemma percentile_const a q c :
  a <> [] -> 0 <= q -> q <= 100 -> Forall (fun x => x == c) a -> percentile a q == c.
Proof.
  intros Hne H0 H1 Hall. destruct (sort_nonempty a Hne) as [Hs Hl].
  unfold percentile, lerp_at.
  destruct (virtual_index_range (length (sort a)) q Hl H0 H1) as [A B].
  destruct (floor_index (sort a) _ A B) as [Hi _].
  set (v := inject_Z (Z.of_nat (length (sort a)) - 1) * (q / 100)) in *.
  pose proof (item_Forall _ (sort a) (Z.to_nat (Qfloor v)) (sort_Forall _ a Hall) ltac:(lia)) as P1.
  pose proof (item_Forall _ (sort a) (Nat.min (Z.to_nat (Qfloor v) + 1) (length (sort a) - 1))
                (sort_Forall _ a Hall) ltac:(lia)) as P2.
  cbv beta in P1, P2. rewrite P1, P2. ring.
Qed.

Lemma sum_perm a b : Permutation a b -> sum a == sum b.
Proof.
  induction 1 as [|x l l' _ IH|x y l|l l' l'' _ IH1 _ IH2]; simpl;
    [reflexivity|rewrite IH; reflexivity|ring|now rewrite IH1].
Qed.

Lemma sum_sort a : sum (sort a) == sum a.
Proof. symmetry. apply sum_perm, sort_perm. Qed.

Lemma sum_nonneg a : Forall (fun x => 0 < x) a -> 0 <= sum a.
Proof.
  induction 1 as [|x l Hx _ IH]; simpl; lra.
Qed.

Lemma sum_pos a : a <> [] -> Forall (fun x => 0 < x) a -> 0 < sum a.
Proof.
  intros Hne H. destruct H as [|x l Hx Hl]; [congruence|].
  simpl. pose proof (sum_nonneg l Hl). lra.
Qed.

Lemma sum_skipn_le k a : Forall (fun x => 0 < x) a -> sum (skipn k a) <= sum a.
Proof.
  intro H. revert k. induction H as [|x l Hx Hl IH]; intro k.
  - rewrite skipn_nil. simpl. lra.
  - destruct k as [|k]; simpl; [lra|]. specialize (IH k). lra.
Qed.

Lemma len_pos (a : list Q) : a <> [] -> 0 < len a.
Proof.
  intro H. unfold len. change 0 with (inject_Z 0). rewrite <- Zlt_Qlt.
  destruct a; simpl; [congruence|lia].
Qed.

Lemma mean_pos a : a <> [] -> Forall (fun x => 0 < x) a -> 0 < mean a.
Proof.
  intros Hne H. unfold mean. apply Qlt_shift_div_l; [now apply len_pos|].
  pose proof (sum_pos a Hne H). lra.
Qed.

Lemma median_pos a : a <> [] -> Forall (fun x => 0 < x) a -> 0 < median a.
Proof.
  intros Hne H. rewrite (median_percentile a Hne).
  apply percentile_gt; [exact Hne|lra|lra|exact H].
Qed.

End ArrayFacts.

(** ** The baseline table *)

Module BaselineFacts.
Import Np Preprocessing.

Section WithSqrt.

Variable fsqrt : Q -> Q.

Lemma client_baseline_fields df c b :
  client_baseline fsqrt df c = Some b ->
  let o := client_oborots df c in
  o <> [] /\
  b_klyuch_klienta b = c /\
  oborot_mean b = mean o /\
  ci_lower b = percentile o 15 /\
  ci_upper b = percentile o 85 /\
  cv b = (if Qltb 0 (median o)
          then (percentile o 65 - percentile o 35) / median o else 0) /\
  koncentraciya b =
    (if (3 <=? length o)%nat then sum (last3 (sort o)) else sum o) / sum o /\
  tranzakcii_kol b = length o.
Proof.
  unfold client_baseline. intro H. cbv zeta.
  destruct (client_oborots df c) as [|x l] eqn:E; [discriminate|].
  injection H as <-. cbn [b_klyuch_klienta oborot_mean ci_lower ci_upper cv
                          koncentraciya tranzakcii_kol].
  repeat split; try reflexivity. discriminate.
Qed.

Lemma baseline_stats_In df b :
  In b (baseline_stats fsqrt df) ->
  In (b_klyuch_klienta b) (unique (map klyuch_klienta df)) /\
  client_baseline fsqrt df (b_klyuch_klienta b) = Some b.
Proof.
  unfold baseline_stats. rewrite in_flat_map. intros [c [Hc Hb]].
  destruct (client_baseline fsqrt df c) as [b'|] eqn:E; [|contradiction].
  destruct Hb as [<-|[]].
  destruct (client_baseline_fields df c b' E) as [_ [K _]].
  rewrite K. now split.
Qed.

Lemma dropna_In t b : In b (dropna t) -> In b t.
Proof. unfold dropna. intro H. apply filter_In in H. tauto. Qed.

Lemma calculate_In df t b :
  calculate_client_baseline fsqrt df = Ok t -> In b t ->
  client_baseline fsqrt df (b_klyuch_klienta b) = Some b.
Proof.
  unfold calculate_client_baseline.
  destruct (baseline_stats fsqrt df) as [|b0 l] eqn:E; [discriminate|].
  intros H Hb. injection H as Ht. change (dropna (b0 :: l) = t) in Ht.
  rewrite <- Ht in Hb. apply dropna_In in Hb.
  rewrite <- E in Hb. now apply baseline_stats_In in Hb.
Qed.

Lemma client_oborots_pos df c : Forall (fun x => 0 < x) (client_oborots df c).
Proof. apply positive_pos. Qed.

Lemma sum_skipn_nonneg k a : Forall (fun x => 0 < x) a -> 0 <= sum (skipn k a).
Proof.
  intro H. revert k. induction H as [|x l Hx Hl IH]; intro k.
  - rewrite skipn_nil. simpl. lra.
  - destruct k as [|k]; simpl; [|apply IH]. pose proof (sum_nonneg l Hl). lra.
Qed.

(** The share held by the three largest cells lies between 0 and 1, and is
    1 as soon as the client has at most three positive cells. *)
Lemma koncentraciya_range df c b :
  client_baseline fsqrt df c = Some b ->
  0 <= koncentraciya b /\ koncentraciya b <= 1 /\
  ((length (client_oborots df c) <= 3)%nat -> koncentraciya b == 1).
Proof.
  intro H. destruct (client_baseline_fields df c b H) as [Hne [_ [_ [_ [_ [_ [K _]]]]]]].
  cbv zeta in *. set (o := client_oborots df c) in *.
  pose proof (client_oborots_pos df c) as Hpos. fold o in Hpos.
  pose proof (sum_pos o Hne Hpos) as S.
  rewrite K. clear K.
  destruct (3 <=? length o)%nat eqn:E.
  - unfold last3.
    pose proof (sum_skipn_nonneg (length (sort o) - 3) (sort o) (sort_Forall _ o Hpos)) as A.
    pose proof (sum_skipn_le (length (sort o) - 3) (sort o) (sort_Forall _ o Hpos)) as B.
    rewrite sum_sort in B.
    split; [apply Qle_shift_div_l; [exact S|lra]|].
    split; [apply Qle_shift_div_r; [exact S|lra]|].
    intro L. apply Nat.leb_le in E.
    replace (length (sort o) - 3)%nat with 0%nat by (rewrite sort_length; lia).
    simpl skipn. rewrite sum_sort. field. lra.
  - assert (sum o / sum o == 1) as One by (field; lra).
    rewrite One. split; [lra|]. split; [lra|]. intros _. reflexivity.
Qed.

(** C1 (as the code has it).  For every client of the baseline table, the
    lower bound is the 15th and the upper bound the 85th percentile of the
    client's positive turnovers, the mean is their mean, and the band
    brackets their median: lower <= median <= upper. *)
Theorem band_brackets_median df t b :
  calculate_client_baseline fsqrt df = Ok t -> In b t ->
  let o := client_oborots df (b_klyuch_klienta b) in
  o <> [] /\
  oborot_mean b = mean o /\
  ci_lower b = percentile o 15 /\
  ci_upper b = percentile o 85 /\
  ci_lower b <= median o /\ median o <= ci_upper b.
Proof.
  intros Ht Hb. pose proof (calculate_In df t b Ht Hb) as H.
  destruct (client_baseline_fields df _ b H) as [Hne [_ [M [L [U _]]]]].
  cbv zeta in *. rewrite L, U, (median_percentile _ Hne).
  repeat split; try assumption; apply percentile_mono; try assumption; lra.
Qed.

(** C3.  For every client of the baseline table the dispersion ratio is the
    65th minus the 35th percentile of the positive turnovers over their
    median, and 0 when the median is not positive; the median is positive,
    the ratio is never negative, and it is 0 when all positive turnovers
    are equal. *)
Theorem dispersion_ratio_spec df t b :
  calculate_client_baseline fsqrt df = Ok t -> In b t ->
  let o := client_oborots df (b_klyuch_klienta b) in
  cv b = (if Qltb 0 (median o)
          then (percentile o 65 - percentile o 35) / median o else 0) /\
  cv b == (percentile o 65 - percentile o 35) / median o /\
  0 <= cv b /\
  (forall c, Forall (fun x => x == c) o -> cv b == 0).
Proof.
  intros Ht Hb. pose proof (calculate_In df t b Ht Hb) as H.
  destruct (client_baseline_fields df _ b H) as [Hne [_ [_ [_ [_ [C _]]]]]].
  cbv zeta in *. set (o := client_oborots df (b_klyuch_klienta b)) in *.
  pose proof (client_oborots_pos df (b_klyuch_klienta b)) as Hpos. fold o in Hpos.
  pose proof (median_pos o Hne Hpos) as Med.
  split; [exact C|].
  assert (cv b == (percentile o 65 - percentile o 35) / median o) as E.
  { rewrite C. apply Qltb_lt in Med. rewrite Med. reflexivity. }
  split; [exact E|]. split.
  - rewrite E. apply Qle_shift_div_l; [exact Med|].
    assert (percentile o 35 <= percentile o 65) by (apply percentile_mono; [exact Hne|lra..]).
    lra.
  - intros c Hc. rewrite E.
    rewrite (percentile_const o 65 c Hne), (percentile_const o 35 c Hne);
      try assumption; try lra.
    field. lra.
Qed.


Lemma mean_positive df t b :
  calculate_client_baseline fsqrt df = Ok t -> In b t -> 0 < oborot_mean b.
Proof.
  intros Ht Hb. pose proof (calculate_In df t b Ht Hb) as H.
  destruct (client_baseline_fields df _ b H) as [Hne [_ [M _]]].
  cbv zeta in *. rewrite M. apply mean_pos; [exact Hne|apply client_oborots_pos].
Qed.

Lemma unique_In x l : In x (unique l) <-> In x l.
Proof.
  induction l as [|y t IH]; simpl; [tauto|].
  rewrite filter_In, IH, negb_true_iff, Z.eqb_neq.
  destruct (Z.eq_dec y x); intuition congruence.
Qed.

Lemma client_oborots_key df c :
  client_oborots df c <> [] -> In c (map klyuch_klienta df).
Proof.
  unfold client_oborots, client_data. intro H.
  destruct (filter (fun r => (klyuch_klienta r =? c)%Z) df) as [|r l] eqn:E;
    [simpl in H; congruence|].
  assert (In r (filter (fun r => (klyuch_klienta r =? c)%Z) df)) as Hr
    by (rewrite E; now left).
  apply filter_In in Hr. destruct Hr as [Hr K]. apply Z.eqb_eq in K.
  rewrite <- K. now apply in_map.
Qed.

Lemma client_baseline_some df c :
  client_oborots df c <> [] -> exists b, client_baseline fsqrt df c = Some b.
Proof.
  unfold client_baseline. intro H.
  destruct (client_oborots df c) as [|x l]; [congruence|]. eexists. reflexivity.
Qed.

Lemma client_baseline_none df c :
  client_oborots df c = [] -> client_baseline fsqrt df c = None.
Proof. unfold client_baseline. intros ->. reflexivity. Qed.

(** The calculator returns a table as soon as one client has a positive
    turnover. *)
Lemma calculate_returns df c :
  client_oborots df c <> [] -> exists t, calculate_client_baseline fsqrt df = Ok t.
Proof.
  intro H. destruct (client_baseline_some df c H) as [b Hb].
  assert (In b (baseline_stats fsqrt df)) as Hin.
  { unfold baseline_stats. apply in_flat_map. exists c. split.
    - apply unique_In. now apply client_oborots_key.
    - rewrite Hb. now left. }
  unfold calculate_client_baseline.
  destruct (baseline_stats fsqrt df) as [|b0 l]; [contradiction|].
  eexists. reflexivity.
Qed.

End WithSqrt.



End BaselineFacts.

(** ** The percentile-band detector *)

Module AnomalyFacts.
Import Np Preprocessing BaselineFacts.

Lemma lookup_In baseline_df c b :
  lookup baseline_df c = Some b -> In b baseline_df /\ b_klyuch_klienta b = c.
Proof.
  unfold lookup. intro H.
  destruct (filter (fun b => (b_klyuch_klienta b =? c)%Z) baseline_df) as [|b0 l] eqn:E;
    [discriminate|].
  injection H as ->.
  assert (In b (filter (fun b => (b_klyuch_klienta b =? c)%Z) baseline_df)) as Hb
    by (rewrite E; now left).
  apply filter_In in Hb. destruct Hb as [Hb K]. apply Z.eqb_eq in K. now split.
Qed.

Lemma row_anomaly_inv baseline_df row a :
  row_anomaly baseline_df row = Some a ->
  exists b,
    lookup baseline_df (klyuch_klienta row) = Some b /\
    positive (oboroty row) <> [] /\
    let observed := mean (positive (oboroty row)) in
    let deviation := (observed - oborot_mean b) / (oborot_mean b + 1) * 100 in
    (observed < ci_lower b \/ ci_upper b < observed) /\
    a = {| a_klyuch_klienta := klyuch_klienta row;
           tip := if Qltb (ci_upper b) observed then vysokie_rashody else nizkie_rashody;
           tekushchij_oborot := observed;
           ozhidaemyj_diapazon := (ci_lower b, ci_upper b);
           otklonenie_pct := Qabs deviation;
           prioritet := if Qltb 30 (Qabs deviation) then vysokij else srednij |}.
Proof.
  unfold row_anomaly, lookup. intro H.
  destruct (positive (oboroty row)) as [|x l] eqn:E; [discriminate|].
  destruct (filter (fun b => (b_klyuch_klienta b =? klyuch_klienta row)%Z) baseline_df)
    as [|b rest]; [discriminate|].
  exists b. split; [reflexivity|]. split; [discriminate|]. cbv zeta in *.
  destruct (Qltb (mean (x :: l)) (ci_lower b) || Qltb (ci_upper b) (mean (x :: l))) eqn:F;
    [|discriminate].
  injection H as <-. split; [|reflexivity].
  apply orb_true_iff in F. rewrite !Qltb_lt in F. exact F.
Qed.

Lemma identify_anomalies_In df baseline_df a :
  In a (identify_anomalies df baseline_df) <->
  exists row, In row df /\ row_anomaly baseline_df row = Some a.
Proof.
  unfold identify_anomalies. rewrite in_flat_map. split; intros [row [Hr Ha]]; exists row.
  - destruct (row_anomaly baseline_df row) as [a'|]; [|contradiction].
    destruct Ha as [<-|[]]. now split.
  - rewrite Ha. split; [exact Hr|now left].
Qed.

(** A turnover inside the closed band is never reported. *)
Lemma row_anomaly_in_band baseline_df row b :
  lookup baseline_df (klyuch_klienta row) = Some b ->
  ci_lower b <= mean (positive (oboroty row)) ->
  mean (positive (oboroty row)) <= ci_upper b ->
  row_anomaly baseline_df row = None.
Proof.
  unfold row_anomaly, lookup. intros Hb L U.
  destruct (positive (oboroty row)) as [|x l]; [reflexivity|].
  destruct (filter (fun b => (b_klyuch_klienta b =? klyuch_klienta row)%Z) baseline_df)
    as [|b' rest]; [discriminate|].
  injection Hb as ->. cbv zeta.
  apply Qltb_ge in L. apply Qltb_ge in U. rewrite L, U. reflexivity.
Qed.

End AnomalyFacts.

(** ** The z-band detector *)

Module ZBandFacts.
Import Np Timeseries.

Lemma Zinsert_In y x l : In y (Zinsert x l) <-> y = x \/ In y l.
Proof.
  induction l as [|z t IH]; simpl; [intuition|].
  destruct (x <? z)%Z; [simpl; intuition|].
  destruct (x =? z)%Z eqn:E.
  - apply Z.eqb_eq in E. subst. simpl. intuition.
  - simpl. rewrite IH. intuition.
Qed.

Lemma group_keys_In x l : In x (group_keys l) <-> In x l.
Proof.
  induction l as [|y t IH]; simpl; [tauto|].
  rewrite Zinsert_In, IH. intuition.
Qed.

Lemma add_total_group df c :
  filter (fun r => Z.eqb (klyuch_klienta (t_row r)) c) (add_total df)
  = add_total (filter (fun r => Z.eqb (klyuch_klienta r) c) df).
Proof.
  unfold add_total. induction df as [|r t IH]; simpl; [reflexivity|].
  destruct (klyuch_klienta r =? c)%Z; simpl; now rewrite IH.
Qed.

Lemma calculate_anomaly_metrics_In df stats r :
  In r (calculate_anomaly_metrics df stats) ->
  exists row s,
    In row df /\ In s stats /\ s_klyuch_klienta s = klyuch_klienta (t_row row) /\
    m_row r = row /\
    m_ci_lower r = ci_lower s /\ m_ci_upper r = ci_upper s /\
    m_oborot_mean r = oborot_mean s /\
    is_anomaly r = Z.b2z (Qltb (obshchij_oborot row) (ci_lower s)
                          || Qltb (ci_upper s) (obshchij_oborot row)) /\
    deviation_pct r
    = (obshchij_oborot row - oborot_mean s) / (oborot_mean s + 1) * 100.
Proof.
  unfold calculate_anomaly_metrics. rewrite in_flat_map. intros [row [Hrow Hr]].
  apply in_map_iff in Hr. destruct Hr as [s [<- Hs]].
  apply filter_In in Hs. destruct Hs as [Hs K]. apply Z.eqb_eq in K.
  exists row, s. cbn. repeat split; assumption.
Qed.


(** The sign of the deviation is the side of the mean the turnover is on,
    as long as the guard [mean + 1] is positive. *)
Lemma deviation_sign x m :
  0 < m + 1 ->
  (0 < (x - m) / (m + 1) * 100 <-> m < x) /\
  ((x - m) / (m + 1) * 100 < 0 <-> x < m).
Proof.
  intro G. pose proof (Qinv_lt_0_compat _ G) as K.
  assert ((x - m) / (m + 1) * 100 == (x - m) * / (m + 1) * 100) as E
    by (unfold Qdiv; reflexivity).
  rewrite E. set (k := / (m + 1)) in *.
  split; split; intro H; nra.
Qed.

Section WithSqrt.

Variable fsqrt : Q -> Q.

Lemma client_statistics_key df c s :
  In s (client_statistics fsqrt df c) -> s_klyuch_klienta s = c.
Proof.
  unfold client_statistics.
  destruct (map obshchij_oborot
              (filter (fun r => (klyuch_klienta (t_row r) =? c)%Z) df)); [intros []|].
  intros [<-|[]]. reflexivity.
Qed.

Lemma stats_In df s :
  In s (snd (calculate_client_statistics fsqrt df)) ->
  In (s_klyuch_klienta s) (map klyuch_klienta df) /\
  In s (client_statistics fsqrt (add_total df) (s_klyuch_klienta s)).
Proof.
  unfold calculate_client_statistics. cbn [snd]. rewrite in_flat_map.
  intros [k [Hk Hs]]. rewrite (client_statistics_key _ _ _ Hs).
  apply (proj1 (group_keys_In _ _)) in Hk. now split.
Qed.


Lemma mean_single v : mean [v] == v.
Proof. unfold mean, len. simpl. field. Qed.



End WithSqrt.

End ZBandFacts.


(** ** What the two detectors record, and when they stay silent *)

Module DetectorSpec.
Import Np Preprocessing BaselineFacts AnomalyFacts.

Lemma lookup_none baseline_df c :
  (forall b, In b baseline_df -> b_klyuch_klienta b <> c) -> lookup baseline_df c = None.
Proof.
  intro H. unfold lookup.
  destruct (filter (fun b => (b_klyuch_klienta b =? c)%Z) baseline_df) as [|b l] eqn:E;
    [reflexivity|].
  assert (In b (filter (fun b => (b_klyuch_klienta b =? c)%Z) baseline_df)) as Hb
    by (rewrite E; now left).
  apply filter_In in Hb. destruct Hb as [Hb K]. apply Z.eqb_eq in K.
  now apply H in Hb.
Qed.

Lemma row_anomaly_absent baseline_df row :
  lookup baseline_df (klyuch_klienta row) = None -> row_anomaly baseline_df row = None.
Proof.
  unfold lookup, row_anomaly. intro H.
  destruct (positive (oboroty row)); [reflexivity|].
  destruct (filter (fun b => (b_klyuch_klienta b =? klyuch_klienta row)%Z) baseline_df);
    [reflexivity|discriminate].
Qed.

(** C4 (as the code has it).  Percentile band: every reported anomaly
    comes from a row of the extract and the baseline row of its client; it
    records the absolute value of (observed - mean) / (mean + 1) * 100, the
    direction being carried by the type (high above the upper bound, low
    below the lower one), and its priority is high exactly when the recorded
    value exceeds 30, medium otherwise.  Z-band: every row records the signed
    value of the same expression, whose sign is the side of the mean the
    turnover lies on whenever mean + 1 is positive; it carries no priority. *)
Theorem deviation_recorded :
  (forall df baseline_df a,
     In a (identify_anomalies df baseline_df) ->
     exists row b,
       In row df /\ lookup baseline_df (klyuch_klienta row) = Some b /\
       let observed := mean (positive (oboroty row)) in
       let deviation := (observed - oborot_mean b) / (oborot_mean b + 1) * 100 in
       tekushchij_oborot a = observed /\
       otklonenie_pct a = Qabs deviation /\
       0 <= otklonenie_pct a /\
       (tip a = vysokie_rashody <-> ci_upper b < observed) /\
       (tip a = nizkie_rashody <-> observed <= ci_upper b /\ observed < ci_lower b) /\
       (prioritet a = vysokij <-> 30 < otklonenie_pct a) /\
       (prioritet a = srednij <-> otklonenie_pct a <= 30)) /\
  (forall df stats r,
     In r (Timeseries.calculate_anomaly_metrics df stats) ->
     let observed := Timeseries.obshchij_oborot (Timeseries.m_row r) in
     let mean := Timeseries.m_oborot_mean r in
     Timeseries.deviation_pct r = (observed - mean) / (mean + 1) * 100 /\
     (0 < mean + 1 ->
      (0 < Timeseries.deviation_pct r <-> mean < observed) /\
      (Timeseries.deviation_pct r < 0 <-> observed < mean))).
Proof.
  split.
  - intros df baseline_df a Ha. apply identify_anomalies_In in Ha.
    destruct Ha as [row [Hrow Ha]].
    destruct (row_anomaly_inv baseline_df row a Ha) as [b [Hb [_ H]]].
    cbv zeta in H. destruct H as [Out ->].
    exists row, b. split; [exact Hrow|]. split; [exact Hb|].
    cbn [tekushchij_oborot otklonenie_pct tip prioritet].
    set (observed := mean (positive (oboroty row))) in *.
    set (deviation := (observed - oborot_mean b) / (oborot_mean b + 1) * 100).
    split; [reflexivity|]. split; [reflexivity|]. split; [apply Qabs_nonneg|].
    split; [|split; [|split]].
    + destruct (Qltb (ci_upper b) observed) eqn:E.
      * apply Qltb_lt in E. tauto.
      * apply Qltb_ge in E. split; [discriminate|lra].
    + destruct (Qltb (ci_upper b) observed) eqn:E.
      * apply Qltb_lt in E. split; [discriminate|lra].
      * apply Qltb_ge in E. split; [intros _; split; [exact E|]|reflexivity].
        destruct Out; lra.
    + destruct (Qltb 30 (Qabs deviation)) eqn:E.
      * apply Qltb_lt in E. tauto.
      * apply Qltb_ge in E. split; [discriminate|lra].
    + destruct (Qltb 30 (Qabs deviation)) eqn:E.
      * apply Qltb_lt in E. split; [discriminate|lra].
      * apply Qltb_ge in E. tauto.
  - intros df stats r Hr.
    destruct (ZBandFacts.calculate_anomaly_metrics_In df stats r Hr)
      as [row [s [_ [_ [_ [R [_ [_ [M [_ D]]]]]]]]]].
    cbv zeta. rewrite R, M, D. split; [reflexivity|].
    apply ZBandFacts.deviation_sign.
Qed.

Section WithSqrt.

Variable fsqrt : Q -> Q.

(** What holds around the drop of a client without positive turnover: such
    a client gets no row in the table the calculator returns; the calculator
    returns a table whenever some client of the extract has a positive
    turnover; and the detector reports nothing for a row whose client has
    no row in the baseline table, so every reported anomaly belongs to a
    client of that table. *)
Theorem empty_history_skipped :
  (forall df c t b,
     client_oborots df c = [] ->
     calculate_client_baseline fsqrt df = Ok t -> In b t -> b_klyuch_klienta b <> c) /\
  (forall df c,
     client_oborots df c <> [] -> exists t, calculate_client_baseline fsqrt df = Ok t) /\
  (forall baseline_df row,
     (forall b, In b baseline_df -> b_klyuch_klienta b <> klyuch_klienta row) ->
     row_anomaly baseline_df row = None) /\
  (forall df baseline_df a,
     In a (identify_anomalies df baseline_df) ->
     exists b, In b baseline_df /\ b_klyuch_klienta b = a_klyuch_klienta a).
Proof.
  split; [|split; [|split]].
  - intros df c t b Hc Ht Hb K.
    pose proof (calculate_In fsqrt df t b Ht Hb) as H. rewrite K in H.
    rewrite (client_baseline_none fsqrt df c Hc) in H. discriminate.
  - intros df c. apply calculate_returns.
  - intros baseline_df row H. apply row_anomaly_absent. now apply lookup_none.
  - intros df baseline_df a Ha. apply identify_anomalies_In in Ha.
    destruct Ha as [row [_ Ha]].
    destruct (row_anomaly_inv baseline_df row a Ha) as [b [Hb [_ H]]].
    cbv zeta in H. destruct H as [_ ->].
    apply lookup_In in Hb. exists b. cbn. tauto.
Qed.


End WithSqrt.

End DetectorSpec.

(** ** The clustering model meets the contract *)

Module WardFacts.
Import Ward.

Lemma pairs_spec m a b : In (a, b) (pairs m) -> (a < b)%nat /\ (b < m)%nat.
Proof.
  unfold pairs. rewrite in_flat_map. intros [i [Hi H]].
  apply in_map_iff in H. destruct H as [j [E Hj]]. injection E as -> ->.
  apply in_seq in Hi. apply in_seq in Hj. lia.
Qed.

Lemma argmin_In f best ps : In (argmin f best ps) (best :: ps).
Proof.
  revert best. induction ps as [|p t IH]; intro best; simpl; [now left|].
  specialize (IH (if Np.Qltb (f p) (f best) then p else best)).
  destruct (Np.Qltb (f p) (f best)); simpl in IH; intuition.
Qed.

Lemma relabel_lt a b m l :
  (a < b)%nat -> (b < m)%nat -> (l < m)%nat -> (relabel a b l < m - 1)%nat.
Proof.
  intros Hab Hb Hl. unfold relabel.
  destruct (Nat.eqb l b) eqn:E; [lia|]. apply Nat.eqb_neq in E.
  destruct (Nat.ltb b l) eqn:F; [apply Nat.ltb_lt in F|apply Nat.ltb_ge in F]; lia.
Qed.

Lemma pairs_nil m : pairs m = [] -> (m < 2)%nat.
Proof.
  intro H. destruct m as [|[|m]]; [lia|lia|].
  unfold pairs in H. simpl in H. discriminate.
Qed.

Lemma merge_step_labelled X n st :
  labelled n st -> (2 <= snd st)%nat ->
  labelled n (merge_step X st) /\ snd (merge_step X st) = (snd st - 1)%nat.
Proof.
  destruct st as [labels m]. unfold labelled. cbn [fst snd]. intros [Hl Hf] Hm.
  unfold merge_step. destruct (pairs m) as [|p ps] eqn:E.
  - apply pairs_nil in E. lia.
  - cbn [fst snd]. split; [|reflexivity]. split; [now rewrite length_map|].
    pose proof (argmin_In (cost X labels) p ps) as Hin. rewrite <- E in Hin.
    destruct (argmin (cost X labels) p ps) as [a b]. apply pairs_spec in Hin.
    cbn [fst snd]. apply Forall_map. eapply Forall_impl; [|exact Hf].
    intros l Hlt. cbv beta in Hlt. apply relabel_lt; lia.
Qed.

Lemma iter_merge X n j :
  (1 <= n)%nat -> (j <= n - 1)%nat ->
  labelled n (Nat.iter j (merge_step X) (seq 0 n, n)) /\
  snd (Nat.iter j (merge_step X) (seq 0 n, n)) = (n - j)%nat.
Proof.
  intros Hn. induction j as [|j IH]; intro Hj.
  - cbn [Nat.iter nat_rect]. unfold labelled. cbn [fst snd].
    split; [|lia]. split; [apply length_seq|].
    apply Forall_forall. intros l Hl. apply in_seq in Hl. lia.
  - destruct (IH ltac:(lia)) as [Inv Sn]. cbn [Nat.iter nat_rect].
    change (nat_rect _ ?x _ j) with (Nat.iter j (merge_step X) x).
    destruct (merge_step_labelled X n _ Inv ltac:(lia)) as [Inv' Sn'].
    split; [exact Inv'|]. rewrite Sn', Sn. lia.
Qed.

Lemma fit_predict_contract : Preprocessing.clustering_contract fit_predict.
Proof.
  split.
  - intros k X labels. unfold fit_predict.
    destruct (length X <? 2)%nat eqn:E2; [discriminate|].
    destruct (k =? 0)%nat eqn:E0; [discriminate|].
    destruct (length X <? k)%nat eqn:Ek; [discriminate|].
    apply Nat.ltb_ge in E2, Ek. apply Nat.eqb_neq in E0.
    intro H. injection H as <-.
    destruct (iter_merge X (length X) (length X - k) ltac:(lia) ltac:(lia))
      as [[Hl Hf] Sn].
    split; [exact Hl|]. rewrite Sn in Hf.
    eapply Forall_impl; [|exact Hf]. intros l Hlt. cbv beta in Hlt. lia.
  - intros k X H2 H1 Hk. unfold fit_predict.
    destruct (length X <? 2)%nat eqn:E2; [apply Nat.ltb_lt in E2; lia|].
    destruct (k =? 0)%nat eqn:E0; [apply Nat.eqb_eq in E0; lia|].
    destruct (length X <? k)%nat eqn:Ek; [apply Nat.ltb_lt in Ek; lia|].
    eexists. reflexivity.
Qed.

End WardFacts.

(** ** Cohorts and the run as a whole *)

Module PipelineSpec.
Import Np Preprocessing.

Lemma cohort_ids_spec t l :
  In l (cohort_ids t) <-> exists r, In r t /\ kogorta r = l.
Proof.
  unfold cohort_ids. rewrite filter_In, existsb_exists. split.
  - intros [_ [x [Hx E]]]. apply Nat.eqb_eq in E. subst x.
    apply in_map_iff in Hx. destruct Hx as [r [E Hr]]. now exists r.
  - intros [r [Hr E]]. assert (In l (map kogorta t)) as Hl
      by (rewrite <- E; now apply in_map).
    split.
    + apply in_seq. pose proof (list_max_le (map kogorta t) (list_max (map kogorta t))) as M.
      destruct M as [M _]. specialize (M (Nat.le_refl _)).
      rewrite Forall_forall in M. specialize (M l Hl). lia.
    + exists l. split; [exact Hl|apply Nat.eqb_refl].
Qed.

Lemma cohort_ids_NoDup t : NoDup (cohort_ids t).
Proof. unfold cohort_ids. apply NoDup_filter, seq_NoDup. Qed.

Lemma cohort_ids_bound t k :
  Forall (fun r => (kogorta r < k)%nat) t -> (length (cohort_ids t) <= k)%nat.
Proof.
  intro H. rewrite <- (length_seq k 0).
  apply NoDup_incl_length; [apply cohort_ids_NoDup|].
  intros l Hl. apply cohort_ids_spec in Hl. destruct Hl as [r [Hr <-]].
  rewrite Forall_forall in H. apply in_seq. specialize (H r Hr). lia.
Qed.

Lemma combine_labels (baseline_df : list Baseline) labels k :
  Forall (fun l => (l < k)%nat) labels ->
  Forall (fun r => (kogorta r < k)%nat)
         (map (fun bl => mkSegmented (fst bl) (snd bl)) (combine baseline_df labels)).
Proof.
  intro H. apply Forall_forall. intros r Hr.
  apply in_map_iff in Hr. destruct Hr as [[b l] [<- Hbl]].
  apply in_combine_r in Hbl. rewrite Forall_forall in H. now apply H.
Qed.

Lemma combine_fst (A B : Type) (l : list A) (l' : list B) :
  length l = length l' -> map (fun x => fst x) (combine l l') = l.
Proof.
  revert l'. induction l as [|x l IH]; intros [|y l'] L; simpl in *;
    try discriminate; [reflexivity|]. f_equal. apply IH. lia.
Qed.

Section WithLibraries.

Variable fsqrt : Q -> Q.
Variable fit_predict : nat -> list (list Q) -> res (list nat).

Lemma standard_scale_length X : length (standard_scale fsqrt X) = length X.
Proof. unfold standard_scale. apply length_map. Qed.

Lemma segment_labels baseline_df k seg :
  clustering_contract fit_predict ->
  segment_clients_hierarchical fsqrt fit_predict baseline_df k = Ok seg ->
  map s_baseline seg = baseline_df /\ Forall (fun r => (kogorta r < k)%nat) seg.
Proof.
  intros [C _]. unfold segment_clients_hierarchical.
  destruct baseline_df as [|b0 bs]; [discriminate|].
  destruct (fit_predict k (standard_scale fsqrt (map features (b0 :: bs))))
    as [labels|e] eqn:E; [|discriminate].
  destruct (length labels =? length (b0 :: bs))%nat eqn:L; [|discriminate].
  apply Nat.eqb_eq in L. intro H. injection H as Hs.
  change (map (fun bl => mkSegmented (fst bl) (snd bl)) (combine (b0 :: bs) labels) = seg)
    in Hs.
  rewrite <- Hs. destruct (C _ _ _ E) as [_ Hlt]. split; [|now apply combine_labels].
  rewrite map_map. cbn [s_baseline]. apply combine_fst. now symmetry.
Qed.

Lemma segment_returns baseline_df k :
  clustering_contract fit_predict ->
  (2 <= length baseline_df)%nat -> (1 <= k)%nat -> (k <= length baseline_df)%nat ->
  exists seg, segment_clients_hierarchical fsqrt fit_predict baseline_df k = Ok seg.
Proof.
  intros [C1 C2] H2 H1 Hk. unfold segment_clients_hierarchical.
  destruct baseline_df as [|b0 bs]; [simpl in H2; lia|].
  destruct (C2 k (standard_scale fsqrt (map features (b0 :: bs)))) as [labels E].
  - now rewrite standard_scale_length, length_map.
  - exact H1.
  - now rewrite standard_scale_length, length_map.
  - rewrite E. destruct (C1 _ _ _ E) as [L _].
    rewrite standard_scale_length, length_map in L. rewrite L, Nat.eqb_refl.
    eexists. reflexivity.
Qed.

(** C5.  Given a clustering that meets its contract, the cohort labels of the
    segmented table are below the configured maximum, so the number of
    distinct cohorts, which is the number of rows of the cohort profiles,
    does not exceed it; and the segmenter does return a table when the
    baseline table has at least two clients and at least as many as the
    maximum. *)
Theorem cohort_count_bounded baseline_df max_cohorts :
  clustering_contract fit_predict ->
  (forall seg,
     segment_clients_hierarchical fsqrt fit_predict baseline_df max_cohorts = Ok seg ->
     NoDup (cohort_ids seg) /\
     (forall l, In l (cohort_ids seg) <-> exists r, In r seg /\ kogorta r = l) /\
     (length (cohort_ids seg) <= max_cohorts)%nat /\
     map p_kogorta (calculate_cohort_profiles fsqrt seg) = cohort_ids seg /\
     (length (calculate_cohort_profiles fsqrt seg) <= max_cohorts)%nat) /\
  ((2 <= length baseline_df)%nat -> (1 <= max_cohorts)%nat ->
   (max_cohorts <= length baseline_df)%nat ->
   exists seg,
     segment_clients_hierarchical fsqrt fit_predict baseline_df max_cohorts = Ok seg).
Proof.
  intro C. split.
  - intros seg Hseg. destruct (segment_labels _ _ _ C Hseg) as [_ Hlt].
    pose proof (cohort_ids_bound seg max_cohorts Hlt) as B.
    split; [apply cohort_ids_NoDup|]. split; [apply cohort_ids_spec|].
    split; [exact B|]. unfold calculate_cohort_profiles. split.
    + rewrite map_map. cbn [p_kogorta cohort_profile]. apply map_id.
    + now rewrite length_map.
  - now apply segment_returns.
Qed.

Lemma save_results_outcome B A C dir fs :
  let p1 := (dir ++ "/client_baseline.csv")%string in
  let p2 := (dir ++ "/anomalies.csv")%string in
  let p3 := (dir ++ "/cohort_profiles.csv")%string in
  let fs1 := write p1 (baseline_csv B) fs in
  let fs2 := write p2 (anomalies_csv A) fs1 in
  let fs3 := write p3 (cohort_profiles_csv C) fs2 in
  save_results B A C dir fs =
  if denied fs dir then (Raise (OSError dir), fs)
  else if denied fs p1 then (Raise (OSError p1), fs)
  else if denied fs p2 then (Raise (OSError p2), fs1)
  else if denied fs p3 then (Raise (OSError p3), fs2)
  else (Ok tt, fs3).
Proof.
  cbv zeta. unfold save_results, bind, makedirs, to_csv.
  destruct (denied fs dir); [reflexivity|].
  destruct (denied fs (dir ++ "/client_baseline.csv")); [reflexivity|].
  cbn [denied write].
  destruct (denied fs (dir ++ "/anomalies.csv")); [reflexivity|].
  cbn [denied write].
  destruct (denied fs (dir ++ "/cohort_profiles.csv")); reflexivity.
Qed.

(** What a run returns and leaves behind, case by case. *)
Lemma main_outcome load_data fs :
  main fsqrt fit_predict load_data fs =
  match tables fsqrt fit_predict load_data with
  | None => (false, fs)
  | Some (B, A, C) =>
    let fs1 := write "./data/client_baseline.csv" (baseline_csv B) fs in
    let fs2 := write "./data/anomalies.csv" (anomalies_csv A) fs1 in
    let fs3 := write "./data/cohort_profiles.csv" (cohort_profiles_csv C) fs2 in
    if denied fs "./data" || denied fs "./data/client_baseline.csv" then (false, fs)
    else if denied fs "./data/anomalies.csv" then (false, fs1)
    else if denied fs "./data/cohort_profiles.csv" then (false, fs2)
    else (true, fs3)
  end.
Proof.
  unfold main, tables, bind, lift, ret.
  destruct load_data as [df|e]; [|reflexivity].
  destruct (calculate_client_baseline fsqrt df) as [t|e]; [|reflexivity].
  destruct (length t =? 0)%nat; [reflexivity|].
  destruct (segment_clients_hierarchical fsqrt fit_predict t 8) as [seg|e]; [|reflexivity].
  rewrite save_results_outcome. cbv zeta.
  change ("./data" ++ "/client_baseline.csv")%string with "./data/client_baseline.csv"%string.
  change ("./data" ++ "/anomalies.csv")%string with "./data/anomalies.csv"%string.
  change ("./data" ++ "/cohort_profiles.csv")%string with "./data/cohort_profiles.csv"%string.
  destruct (denied fs "./data"); [reflexivity|].
  destruct (denied fs "./data/client_baseline.csv"); [reflexivity|]. cbn [orb].
  destruct (denied fs "./data/anomalies.csv"); [reflexivity|].
  destruct (denied fs "./data/cohort_profiles.csv"); reflexivity.
Qed.

(** C9 (as the code has it).  A run that stops before the writer is
    called returns failure and leaves the file system as it was.  A run that
    reaches the writer either succeeds, and then the three files hold its
    three tables, or fails in the writer, which writes the files one after
    the other with no rollback: the file system is then unchanged, or holds
    the baseline file only, or the baseline and anomalies files only.  When
    no path is refused, the run writes all three files or none. *)
Theorem run_writes_all_or_prefix load_data fs :
  let run := main fsqrt fit_predict load_data fs in
  (tables fsqrt fit_predict load_data = None -> run = (false, fs)) /\
  (forall B A C,
     tables fsqrt fit_predict load_data = Some (B, A, C) ->
     let fs1 := write "./data/client_baseline.csv" (baseline_csv B) fs in
     let fs2 := write "./data/anomalies.csv" (anomalies_csv A) fs1 in
     let fs3 := write "./data/cohort_profiles.csv" (cohort_profiles_csv C) fs2 in
     (run = (true, fs3) /\
      content fs3 "./data/client_baseline.csv" = Some (baseline_csv B) /\
      content fs3 "./data/anomalies.csv" = Some (anomalies_csv A) /\
      content fs3 "./data/cohort_profiles.csv" = Some (cohort_profiles_csv C)) \/
     (run = (false, fs) /\
      (denied fs "./data" = true \/ denied fs "./data/client_baseline.csv" = true)) \/
     (run = (false, fs1) /\ denied fs "./data/anomalies.csv" = true) \/
     (run = (false, fs2) /\ denied fs "./data/cohort_profiles.csv" = true)) /\
  ((forall p, denied fs p = false) ->
   run = (false, fs) \/
   (fst run = true /\
    exists B A C,
      content (snd run) "./data/client_baseline.csv" = Some (baseline_csv B) /\
      content (snd run) "./data/anomalies.csv" = Some (anomalies_csv A) /\
      content (snd run) "./data/cohort_profiles.csv" = Some (cohort_profiles_csv C))).
Proof.
  cbv zeta. rewrite main_outcome. split; [|split].
  - intros ->. reflexivity.
  - intros B A C ->. cbv zeta.
    destruct (denied fs "./data") eqn:D0; [right; left; split; [reflexivity|now left]|].
    destruct (denied fs "./data/client_baseline.csv") eqn:D1;
      [right; left; split; [reflexivity|now right]|]. cbn [orb].
    destruct (denied fs "./data/anomalies.csv") eqn:D2;
      [right; right; left; split; reflexivity|].
    destruct (denied fs "./data/cohort_profiles.csv") eqn:D3;
      [right; right; right; split; reflexivity|].
    left. repeat split; reflexivity.
  - intro Free. destruct (tables fsqrt fit_predict load_data) as [[[B A] C]|];
      [|now left].
    cbv zeta. rewrite !Free. cbn [orb]. right. split; [reflexivity|].
    exists B, A, C. repeat split; reflexivity.
Qed.

(** C8.  The result of a run depends on the extract and on what the file
    system refuses, and on nothing else: two runs on the same extract return
    the same flag and, when they succeed, leave the same three tables in the
    three files, whatever the files held before; run again on the state it
    left, the pipeline returns the same flag and leaves every file as it
    was. *)
Theorem rerun_identical load_data fs fs' :
  (forall p, denied fs p = denied fs' p) ->
  let run := main fsqrt fit_predict load_data fs in
  let run' := main fsqrt fit_predict load_data fs' in
  let again := main fsqrt fit_predict load_data (snd run) in
  fst run = fst run' /\
  (fst run = true ->
   forall p, In p ["./data/client_baseline.csv"; "./data/anomalies.csv";
                   "./data/cohort_profiles.csv"]%string ->
             content (snd run) p = content (snd run') p /\ content (snd run) p <> None) /\
  fst again = fst run /\
  (forall p, content (snd again) p = content (snd run) p).
Proof.
  intro Same. cbv zeta. rewrite !main_outcome.
  destruct (tables fsqrt fit_predict load_data) as [[[B A] C]|].
  2:{ cbn [fst snd]. split; [reflexivity|]. split; [discriminate|].
      split; [reflexivity|]. intro p. reflexivity. }
  cbv zeta. rewrite <- !Same.
  destruct (denied fs "./data") eqn:D0.
  { cbn [orb fst snd]. rewrite D0. cbn [orb fst snd].
    split; [reflexivity|]. split; [discriminate|].
    split; [reflexivity|]. intro p. reflexivity. }
  destruct (denied fs "./data/client_baseline.csv") eqn:D1.
  { cbn [orb fst snd]. rewrite D0, D1. cbn [orb fst snd].
    split; [reflexivity|]. split; [discriminate|].
    split; [reflexivity|]. intro p. reflexivity. }
  cbn [orb].
  destruct (denied fs "./data/anomalies.csv") eqn:D2.
  { cbn [fst snd denied write]. rewrite D0, D1, D2. cbn [orb fst snd].
    split; [reflexivity|]. split; [discriminate|]. split; [reflexivity|].
    intro p. cbn [content write]. destruct (String.eqb p _); reflexivity. }
  destruct (denied fs "./data/cohort_profiles.csv") eqn:D3.
  { cbn [fst snd denied write]. rewrite D0, D1, D2, D3. cbn [orb fst snd].
    split; [reflexivity|]. split; [discriminate|]. split; [reflexivity|].
    intro p. cbn [content write].
    destruct (String.eqb p "./data/anomalies.csv");
      destruct (String.eqb p "./data/client_baseline.csv"); reflexivity. }
  cbn [fst snd denied write]. rewrite D0, D1, D2, D3. cbn [orb fst snd].
  split; [reflexivity|]. split; [|split; [reflexivity|]].
  - intros _ p [<-|[<-|[<-|[]]]]; split; try reflexivity; discriminate.
  - intro p. cbn [content write].
    destruct (String.eqb p "./data/cohort_profiles.csv");
      destruct (String.eqb p "./data/anomalies.csv");
      destruct (String.eqb p "./data/client_baseline.csv"); reflexivity.
Qed.

End WithLibraries.

End PipelineSpec.

(** ** The theorems at work on the worked extracts *)

Module Worked.
Import Np Preprocessing Examples.

(** C1, as stated, fails.  Seven periods at 100 and one at 1000: both bounds
    of the band are 100 while the mean is 212.5, above the upper bound. *)
Lemma band_misses_mean :
  exists b,
    calculate_client_baseline sqrt6 df_outlier = Ok [b] /\
    client_oborots df_outlier 1 <> [] /\
    ci_lower b == 100 /\ ci_upper b == 100 /\ oborot_mean b == 425 # 2 /\
    ~ (ci_lower b <= oborot_mean b /\ oborot_mean b <= ci_upper b).
Proof.
  eexists. split; [vm_compute; reflexivity|].
  split; [vm_compute; discriminate|].
  split; [vm_compute; reflexivity|]. split; [vm_compute; reflexivity|].
  split; [vm_compute; reflexivity|].
  intros [_ H]. vm_compute in H. apply H. reflexivity.
Qed.

Lemma band_brackets_median_witness :
  calculate_client_baseline sqrt6 df_outlier = Ok (baseline_of df_outlier) /\
  In (first_baseline df_outlier) (baseline_of df_outlier) /\
  ci_lower (first_baseline df_outlier) <= median (client_oborots df_outlier 1) /\
  median (client_oborots df_outlier 1) <= ci_upper (first_baseline df_outlier).
Proof.
  assert (calculate_client_baseline sqrt6 df_outlier = Ok (baseline_of df_outlier)) as H1
    by (vm_compute; reflexivity).
  assert (In (first_baseline df_outlier) (baseline_of df_outlier)) as H2
    by (left; reflexivity).
  split; [exact H1|]. split; [exact H2|].
  exact (proj2 (proj2 (proj2 (proj2
           (BaselineFacts.band_brackets_median sqrt6 df_outlier _ _ H1 H2))))).
Defined.

(** C2 on two periods.  A client spending one unit in each of two
    categories in each of two periods has four positive cells; the three
    largest hold 3 of the 4 units, so the concentration is 3/4 and not 1,
    although only two categories carry any spend. *)
Theorem koncentraciya_two_periods :
  exists b,
    calculate_client_baseline sqrt6 df_two_by_two = Ok [b] /\
    Forall (fun r => length (oboroty r) = 2%nat) df_two_by_two /\
    tranzakcii_kol b = 4%nat /\
    koncentraciya b == 3 # 4 /\
    ~ koncentraciya b == 1.
Proof.
  eexists. split; [vm_compute; reflexivity|].
  split; [repeat constructor|]. split; [reflexivity|].
  split; [vm_compute; reflexivity|]. vm_compute. discriminate.
Qed.

Lemma dispersion_ratio_spec_witness :
  calculate_client_baseline sqrt6 df_outlier = Ok (baseline_of df_outlier) /\
  In (first_baseline df_outlier) (baseline_of df_outlier) /\
  0 <= cv (first_baseline df_outlier).
Proof.
  assert (calculate_client_baseline sqrt6 df_outlier = Ok (baseline_of df_outlier)) as H1
    by (vm_compute; reflexivity).
  assert (In (first_baseline df_outlier) (baseline_of df_outlier)) as H2
    by (left; reflexivity).
  split; [exact H1|]. split; [exact H2|].
  exact (proj1 (proj2 (proj2
           (BaselineFacts.dispersion_ratio_spec sqrt6 df_outlier _ _ H1 H2)))).
Defined.

(** C4, as stated, fails.  Two periods at 10 and 100: the band is
    [23.5, 86.5] and the mean 55; the period at 10 is reported as low
    spending, and the recorded deviation is +4500/56, the absolute value of
    the signed (10 - 55) / (55 + 1) * 100. *)
Lemma low_anomaly_recorded_positive :
  exists b a,
    calculate_client_baseline sqrt6 df_low = Ok [b] /\
    In a (identify_anomalies df_low [b]) /\
    tip a = nizkie_rashody /\
    tekushchij_oborot a == 10 /\ oborot_mean b == 55 /\
    otklonenie_pct a == 4500 # 56 /\
    (tekushchij_oborot a - oborot_mean b) / (oborot_mean b + 1) * 100 < 0 /\
    ~ otklonenie_pct a
      == (tekushchij_oborot a - oborot_mean b) / (oborot_mean b + 1) * 100.
Proof.
  eexists. eexists. split; [vm_compute; reflexivity|].
  split; [left; vm_compute; reflexivity|].
  split; [reflexivity|].
  split; [vm_compute; reflexivity|]. split; [vm_compute; reflexivity|].
  split; [vm_compute; reflexivity|]. split; [vm_compute; reflexivity|].
  vm_compute. discriminate.
Qed.

Lemma deviation_recorded_witness :
  In (hd (mkAnomaly 0 nizkie_rashody 0 (0, 0) 0 srednij)
         (identify_anomalies df_low (baseline_of df_low)))
     (identify_anomalies df_low (baseline_of df_low)) /\
  exists row b,
    In row df_low /\ lookup (baseline_of df_low) (klyuch_klienta row) = Some b /\
    otklonenie_pct (hd (mkAnomaly 0 nizkie_rashody 0 (0, 0) 0 srednij)
                       (identify_anomalies df_low (baseline_of df_low)))
    = Qabs ((mean (positive (oboroty row)) - oborot_mean b) / (oborot_mean b + 1) * 100).
Proof.
  assert (In (hd (mkAnomaly 0 nizkie_rashody 0 (0, 0) 0 srednij)
                 (identify_anomalies df_low (baseline_of df_low)))
             (identify_anomalies df_low (baseline_of df_low))) as H
    by (left; reflexivity).
  split; [exact H|].
  destruct (proj1 DetectorSpec.deviation_recorded df_low (baseline_of df_low) _ H)
    as [row [b [H1 [H2 [_ [H3 _]]]]]].
  exists row, b. split; [exact H1|]. split; [exact H2|exact H3].
Defined.

Lemma cohort_count_bounded_witness :
  clustering_contract Ward.fit_predict /\
  (2 <= length (baseline_of df_nine))%nat /\
  (8 <= length (baseline_of df_nine))%nat /\
  exists seg,
    segment_clients_hierarchical sqrt6 Ward.fit_predict (baseline_of df_nine) 8 = Ok seg /\
    (length (calculate_cohort_profiles sqrt6 seg) <= 8)%nat.
Proof.
  assert (length (baseline_of df_nine) = 9%nat) as L by (vm_compute; reflexivity).
  split; [exact WardFacts.fit_predict_contract|].
  split; [rewrite L; lia|]. split; [rewrite L; lia|].
  destruct (PipelineSpec.cohort_count_bounded sqrt6 Ward.fit_predict
              (baseline_of df_nine) 8 WardFacts.fit_predict_contract) as [P1 P2].
  destruct P2 as [seg Hseg]; [rewrite L; lia|lia|rewrite L; lia|].
  exists seg. split; [exact Hseg|]. apply (P1 seg Hseg).
Defined.



(** C7 at the failing input.  The only client of the extract has no
    positive turnover: no row is collected, the frame built from the empty
    list has no columns, and the calculator raises a key error at its
    summary line instead of returning the empty table.  Where the table is
    emptied by the missing age instead, the calculator returns the empty
    table without an error, and the run stops at its empty-table check. *)
Theorem idle_extract_raises :
  client_oborots df_idle 1 = [] /\
  calculate_client_baseline sqrt6 df_idle = Raise (KeyError "oborot_mean") /\
  calculate_client_baseline sqrt6 [mkRow 1 [Some 5] None] = Ok [] /\
  main sqrt6 Ward.fit_predict (Ok df_idle) fs_empty = (false, fs_empty) /\
  main sqrt6 Ward.fit_predict (Ok [mkRow 1 [Some 5] None]) fs_empty = (false, fs_empty).
Proof. repeat split; vm_compute; reflexivity. Qed.

Lemma empty_history_skipped_witness :
  client_oborots df_idle_and_active 1 = [] /\
  client_oborots df_idle_and_active 2 <> [] /\
  calculate_client_baseline sqrt6 df_idle_and_active
  = Ok (baseline_of df_idle_and_active) /\
  (forall b, In b (baseline_of df_idle_and_active) -> b_klyuch_klienta b <> 1%Z) /\
  row_anomaly (baseline_of df_idle_and_active) (period 1 [0]) = None.
Proof.
  assert (client_oborots df_idle_and_active 1 = []) as H1 by reflexivity.
  assert (client_oborots df_idle_and_active 2 <> []) as H2 by (vm_compute; discriminate).
  assert (calculate_client_baseline sqrt6 df_idle_and_active
          = Ok (baseline_of df_idle_and_active)) as H3 by (vm_compute; reflexivity).
  destruct (DetectorSpec.empty_history_skipped sqrt6) as [P1 [_ [P3 _]]].
  assert (forall b, In b (baseline_of df_idle_and_active) -> b_klyuch_klienta b <> 1%Z)
    as H4 by (intros b Hb; exact (P1 df_idle_and_active 1%Z _ b H1 H3 Hb)).
  split; [exact H1|]. split; [exact H2|]. split; [exact H3|]. split; [exact H4|].
  exact (P3 (baseline_of df_idle_and_active) (period 1 [0]) H4).
Defined.

Lemma rerun_identical_witness :
  (forall p, denied fs_empty p = denied fs_stale p) /\
  fst (main sqrt6 Ward.fit_predict (Ok df_nine) fs_empty)
  = fst (main sqrt6 Ward.fit_predict (Ok df_nine) fs_stale).
Proof.
  assert (forall p, denied fs_empty p = denied fs_stale p) as H
    by (intro p; reflexivity).
  split; [exact H|].
  exact (proj1 (PipelineSpec.rerun_identical sqrt6 Ward.fit_predict
                  (Ok df_nine) fs_empty fs_stale H)).
Defined.

(** C9, as stated, fails.  Nine clients and an anomalies file that cannot
    be written: the run fails, yet the baseline file is there and the other
    two are not. *)
Lemma anomalies_denied_leaves_baseline :
  fst (main sqrt6 Ward.fit_predict (Ok df_nine) fs_anomalies_denied) = false /\
  content (snd (main sqrt6 Ward.fit_predict (Ok df_nine) fs_anomalies_denied))
          "./data/client_baseline.csv" <> None /\
  content (snd (main sqrt6 Ward.fit_predict (Ok df_nine) fs_anomalies_denied))
          "./data/anomalies.csv" = None /\
  content (snd (main sqrt6 Ward.fit_predict (Ok df_nine) fs_anomalies_denied))
          "./data/cohort_profiles.csv" = None.
Proof.
  assert (tables sqrt6 Ward.fit_predict (Ok df_nine) <> None) as Reached.
  { unfold tables.
    assert (calculate_client_baseline sqrt6 df_nine = Ok (baseline_of df_nine)) as ->
      by (vm_compute; reflexivity).
    assert (length (baseline_of df_nine) = 9%nat) as L by (vm_compute; reflexivity).
    cbv beta iota. rewrite L. cbn [Nat.eqb].
    destruct (PipelineSpec.segment_returns sqrt6 Ward.fit_predict (baseline_of df_nine) 8
                WardFacts.fit_predict_contract) as [seg ->]; [rewrite ?L; lia..|].
    discriminate. }
  rewrite (PipelineSpec.main_outcome sqrt6 Ward.fit_predict (Ok df_nine) fs_anomalies_denied).
  destruct (tables sqrt6 Ward.fit_predict (Ok df_nine)) as [[[B A] C]|];
    [|contradiction].
  split; [reflexivity|]. split; [discriminate|]. split; reflexivity.
Qed.

Lemma run_writes_all_or_prefix_witness :
  (forall p, denied fs_empty p = false) /\
  (main sqrt6 Ward.fit_predict (Ok df_idle) fs_empty = (false, fs_empty) \/
   fst (main sqrt6 Ward.fit_predict (Ok df_idle) fs_empty) = true).
Proof.
  assert (forall p, denied fs_empty p = false) as H by (intro p; reflexivity).
  split; [exact H|].
  destruct (proj2 (proj2 (PipelineSpec.run_writes_all_or_prefix sqrt6 Ward.fit_predict
                            (Ok df_idle) fs_empty)) H) as [F|[T _]].
  - left. exact F.
  - right. exact T.
Defined.



End Worked.

(** ** More on the baseline table *)

Module BaselineTable.
Import Np Preprocessing BaselineFacts.

Lemma unique_NoDup l : NoDup (unique l).
Proof.
  induction l as [|x t IH]; simpl; constructor.
  - rewrite filter_In, negb_true_iff, Z.eqb_neq. tauto.
  - now apply NoDup_filter.
Qed.

Lemma NoDup_map_filter (A B : Type) (f : A -> B) (p : A -> bool) l :
  NoDup (map f l) -> NoDup (map f (filter p l)).
Proof.
  induction l as [|x t IH]; simpl; [trivial|].
  intro H. inversion H as [|? ? Hx Ht]; subst.
  destruct (p x); simpl; [constructor|]; auto.
  intro Hin. apply Hx. apply in_map_iff in Hin. destruct Hin as [y [E Hy]].
  apply filter_In in Hy. apply in_map_iff. exists y. tauto.
Qed.

Lemma percentile_ge a q c :
  a <> [] -> 0 <= q -> q <= 100 -> Forall (fun x => c <= x) a -> c <= percentile a q.
Proof.
  intros Hne H0 H1 Hall. destruct (sort_nonempty a Hne) as [Hs Hl].
  unfold percentile.
  destruct (virtual_index_range (length (sort a)) q Hl H0 H1) as [A B].
  destruct (lerp_at_bounds (sort a) _ (sort_sorted a) Hs A B) as [L _].
  destruct (floor_index (sort a) _ A B) as [Hi _].
  pose proof (item_Forall _ (sort a)
                (Z.to_nat (Qfloor (inject_Z (Z.of_nat (length (sort a)) - 1) * (q / 100))))
                (sort_Forall _ a Hall) ltac:(lia)) as P.
  cbv beta in P. lra.
Qed.

Lemma percentile_le a q c :
  a <> [] -> 0 <= q -> q <= 100 -> Forall (fun x => x <= c) a -> percentile a q <= c.
Proof.
  intros Hne H0 H1 Hall. destruct (sort_nonempty a Hne) as [Hs Hl].
  unfold percentile.
  destruct (virtual_index_range (length (sort a)) q Hl H0 H1) as [A B].
  destruct (lerp_at_bounds (sort a) _ (sort_sorted a) Hs A B) as [_ U].
  destruct (floor_index (sort a) _ A B) as [Hi _].
  pose proof (item_Forall _ (sort a)
                (Nat.min (Z.to_nat (Qfloor (inject_Z (Z.of_nat (length (sort a)) - 1)
                                            * (q / 100))) + 1)
                         (length (sort a) - 1))
                (sort_Forall _ a Hall) ltac:(lia)) as P.
  cbv beta in P. lra.
Qed.

Lemma sum_ge a c : Forall (fun x => c <= x) a -> c * len a <= sum a.
Proof.
  unfold len. induction 1 as [|x l Hx _ IH].
  - cbn [sum length Z.of_nat]. change (inject_Z 0) with 0. lra.
  - cbn [sum length]. rewrite Nat2Z.inj_succ. unfold Z.succ.
    rewrite inject_Z_plus. change (inject_Z 1) with 1.
    set (N := inject_Z (Z.of_nat (length l))) in *. nra.
Qed.

Lemma sum_le a c : Forall (fun x => x <= c) a -> sum a <= c * len a.
Proof.
  unfold len. induction 1 as [|x l Hx _ IH].
  - cbn [sum length Z.of_nat]. change (inject_Z 0) with 0. lra.
  - cbn [sum length]. rewrite Nat2Z.inj_succ. unfold Z.succ.
    rewrite inject_Z_plus. change (inject_Z 1) with 1.
    set (N := inject_Z (Z.of_nat (length l))) in *. nra.
Qed.

Lemma mean_ge a c : a <> [] -> Forall (fun x => c <= x) a -> c <= mean a.
Proof.
  intros Hne H. unfold mean. apply Qle_shift_div_l; [now apply len_pos|].
  now apply sum_ge.
Qed.

Lemma mean_le a c : a <> [] -> Forall (fun x => x <= c) a -> mean a <= c.
Proof.
  intros Hne H. unfold mean. apply Qle_shift_div_r; [now apply len_pos|].
  now apply sum_le.
Qed.

Section WithSqrt.

Variable fsqrt : Q -> Q.

Lemma client_baseline_vozrast df c b :
  client_baseline fsqrt df c = Some b ->
  b_vozrast b = first_vozrast (client_data df c).
Proof.
  unfold client_baseline.
  destruct (client_oborots df c); [discriminate|].
  intro H. injection H as <-. reflexivity.
Qed.

Lemma calculate_table df t :
  calculate_client_baseline fsqrt df = Ok t -> t = dropna (baseline_stats fsqrt df).
Proof.
  unfold calculate_client_baseline.
  destruct (baseline_stats fsqrt df) as [|b0 l]; [discriminate|].
  intro H. injection H as Ht. symmetry. exact Ht.
Qed.

Lemma baseline_stats_keys df :
  NoDup (map b_klyuch_klienta (baseline_stats fsqrt df)).
Proof.
  unfold baseline_stats.
  pose proof (unique_NoDup (map klyuch_klienta df)) as N.
  induction (unique (map klyuch_klienta df)) as [|c l IH]; [constructor|].
  inversion N as [|? ? Hc Hl]; subst. cbn [flat_map]. specialize (IH Hl).
  destruct (client_baseline fsqrt df c) as [b|] eqn:E; [|exact IH].
  cbn [app map]. constructor; [|exact IH].
  destruct (client_baseline_fields fsqrt df c b E) as [_ [K _]].
  intro Hin. apply in_map_iff in Hin. destruct Hin as [b' [Kb Hb']].
  apply in_flat_map in Hb'. destruct Hb' as [c' [Hc' Hb']].
  destruct (client_baseline fsqrt df c') as [b''|] eqn:E'; [|contradiction].
  destruct Hb' as [<-|[]].
  destruct (client_baseline_fields fsqrt df c' b'' E') as [_ [K' _]].
  apply Hc. congruence.
Qed.

Lemma table_row_has_age df t b :
  calculate_client_baseline fsqrt df = Ok t -> In b t ->
  first_vozrast (client_data df (b_klyuch_klienta b)) <> None.
Proof.
  intros Ht Hb. pose proof (calculate_In fsqrt df t b Ht Hb) as H.
  rewrite <- (client_baseline_vozrast df _ b H).
  rewrite (calculate_table df t Ht) in Hb. unfold dropna in Hb.
  apply filter_In in Hb. destruct Hb as [_ Hv].
  destruct (b_vozrast b); discriminate.
Qed.

(** X1.  The baseline table has one row per client: no client key occurs
    twice, and every key of the table is the key of a row of the extract. *)
Theorem table_one_row_per_client df t :
  calculate_client_baseline fsqrt df = Ok t ->
  NoDup (map b_klyuch_klienta t) /\
  (forall b, In b t -> In (b_klyuch_klienta b) (map klyuch_klienta df)).
Proof.
  intro Ht. split.
  - rewrite (calculate_table df t Ht). apply NoDup_map_filter, baseline_stats_keys.
  - intros b Hb. pose proof (calculate_In fsqrt df t b Ht Hb) as H.
    destruct (client_baseline_fields fsqrt df _ b H) as [Hne _].
    now apply client_oborots_key.
Qed.

(** X2.  Every row of the baseline table belongs to a client that has at
    least one positive turnover cell and whose first row carries an age,
    which is the age of the table row; so a client without positive
    turnover, or whose first row lacks the age, has no row in the table. *)
Theorem table_rows_have_turnover_and_age df t :
  calculate_client_baseline fsqrt df = Ok t ->
  (forall b, In b t ->
     client_oborots df (b_klyuch_klienta b) <> [] /\
     first_vozrast (client_data df (b_klyuch_klienta b)) <> None /\
     b_vozrast b = first_vozrast (client_data df (b_klyuch_klienta b))) /\
  (forall c,
     client_oborots df c = [] \/ first_vozrast (client_data df c) = None ->
     forall b, In b t -> b_klyuch_klienta b <> c).
Proof.
  intro Ht.
  assert (forall b, In b t ->
            client_oborots df (b_klyuch_klienta b) <> [] /\
            first_vozrast (client_data df (b_klyuch_klienta b)) <> None /\
            b_vozrast b = first_vozrast (client_data df (b_klyuch_klienta b))) as Rows.
  { intros b Hb. pose proof (calculate_In fsqrt df t b Ht Hb) as H.
    destruct (client_baseline_fields fsqrt df _ b H) as [Hne _].
    split; [exact Hne|]. split; [now apply (table_row_has_age df t)|].
    now apply client_baseline_vozrast. }
  split; [exact Rows|].
  intros c Hc b Hb K. destruct (Rows b Hb) as [Hne [Hv _]]. rewrite K in Hne, Hv.
  destruct Hc as [Hc|Hc]; congruence.
Qed.

(** X3.  In every row of the baseline table the two band bounds lie
    between the smallest and the largest positive turnover of the client:
    whatever bounds all of them from below (above) bounds the lower and the
    upper bound from below (above).  Both bounds and the mean are positive,
    and the activity count is the number of positive cells, at least one. *)
Theorem band_within_observations df t b :
  calculate_client_baseline fsqrt df = Ok t -> In b t ->
  let o := client_oborots df (b_klyuch_klienta b) in
  (forall c, Forall (fun x => c <= x) o -> c <= ci_lower b /\ c <= ci_upper b) /\
  (forall c, Forall (fun x => x <= c) o -> ci_lower b <= c /\ ci_upper b <= c) /\
  0 < ci_lower b /\ 0 < ci_upper b /\ 0 < oborot_mean b /\
  (1 <= tranzakcii_kol b)%nat /\ tranzakcii_kol b = length o.
Proof.
  intros Ht Hb. pose proof (calculate_In fsqrt df t b Ht Hb) as H.
  destruct (client_baseline_fields fsqrt df _ b H)
    as [Hne [_ [M [L [U [_ [_ T]]]]]]].
  cbv zeta in *. set (o := client_oborots df (b_klyuch_klienta b)) in *.
  pose proof (client_oborots_pos df (b_klyuch_klienta b)) as Hpos. fold o in Hpos.
  rewrite M, L, U, T. split; [|split].
  - intros c Hc. split; apply percentile_ge; try exact Hne; try exact Hc; lra.
  - intros c Hc. split; apply percentile_le; try exact Hne; try exact Hc; lra.
  - split; [apply percentile_gt; [exact Hne|lra..|exact Hpos]|].
    split; [apply percentile_gt; [exact Hne|lra..|exact Hpos]|].
    split; [now apply mean_pos|]. split; [|reflexivity].
    destruct o; [congruence|simpl; lia].
Qed.

Lemma sum_last3_pos a :
  (3 <= length a)%nat -> Forall (fun x => 0 < x) a -> 0 < sum (last3 a).
Proof.
  intros L H. unfold last3.
  assert (length (skipn (length a - 3) a) = 3%nat) as L3 by (rewrite length_skipn; lia).
  apply sum_pos.
  - intro E. rewrite E in L3. discriminate.
  - apply Forall_forall. intros x Hx. rewrite Forall_forall in H. apply H.
    rewrite <- (firstn_skipn (length a - 3) a). apply in_or_app. now right.
Qed.

(** X4.  In every row of the baseline table the concentration is positive,
    and for a client with fewer than three positive turnover cells it is
    exactly 1: numerator and denominator are then the same sum. *)
Theorem concentration_of_few_cells df t b :
  calculate_client_baseline fsqrt df = Ok t -> In b t ->
  0 < koncentraciya b /\
  ((tranzakcii_kol b < 3)%nat -> koncentraciya b == 1).
Proof.
  intros Ht Hb. pose proof (calculate_In fsqrt df t b Ht Hb) as H.
  destruct (client_baseline_fields fsqrt df _ b H) as [Hne [_ [_ [_ [_ [_ [K T]]]]]]].
  cbv zeta in *. set (o := client_oborots df (b_klyuch_klienta b)) in *.
  pose proof (client_oborots_pos df (b_klyuch_klienta b)) as Hpos. fold o in Hpos.
  pose proof (sum_pos o Hne Hpos) as S. rewrite K, T.
  destruct (3 <=? length o)%nat eqn:E.
  - apply Nat.leb_le in E. split.
    + apply Qlt_shift_div_l; [exact S|].
      assert (0 < sum (last3 (sort o))) as P
        by (apply sum_last3_pos; [now rewrite sort_length|now apply sort_Forall]).
      lra.
    + intro L. lia.
  - assert (sum o / sum o == 1) as One by (field; lra).
    rewrite One. split; [lra|]. intros _. reflexivity.
Qed.

(** X5.  The calculator raises exactly when no client of the extract has a
    positive turnover cell, and what it raises is the key error of the
    summary line. *)
Theorem calculate_raises_iff df :
  ((exists e, calculate_client_baseline fsqrt df = Raise e) <->
   (forall c, client_oborots df c = [])) /\
  (forall e, calculate_client_baseline fsqrt df = Raise e -> e = KeyError "oborot_mean").
Proof.
  split; [split|].
  - intros [e He] c. destruct (client_oborots df c) as [|x l] eqn:E; [reflexivity|].
    destruct (calculate_returns fsqrt df c) as [t Ht]; [rewrite E; discriminate|].
    rewrite Ht in He. discriminate.
  - intro Hall. unfold calculate_client_baseline.
    destruct (baseline_stats fsqrt df) as [|b l] eqn:E; [eexists; reflexivity|].
    assert (In b (baseline_stats fsqrt df)) as Hb by (rewrite E; now left).
    apply (baseline_stats_In fsqrt) in Hb. destruct Hb as [_ Hb].
    rewrite (client_baseline_none fsqrt df _ (Hall _)) in Hb. discriminate.
  - intros e. unfold calculate_client_baseline.
    destruct (baseline_stats fsqrt df); [|discriminate].
    intro H. injection H as <-. reflexivity.
Qed.

End WithSqrt.

End BaselineTable.

(** ** More on the percentile-band detector *)

Module AnomalyTable.
Import Np Preprocessing BaselineFacts AnomalyFacts Vocabulary.

Lemma row_anomaly_some_iff baseline_df row :
  row_anomaly baseline_df row <> None <->
  positive (oboroty row) <> [] /\
  exists b, lookup baseline_df (klyuch_klienta row) = Some b /\
            (mean (positive (oboroty row)) < ci_lower b \/
             ci_upper b < mean (positive (oboroty row))).
Proof.
  split.
  - intro H. destruct (row_anomaly baseline_df row) as [a|] eqn:E; [|congruence].
    destruct (row_anomaly_inv baseline_df row a E) as [b [Hb [Hne [Out _]]]].
    split; [exact Hne|]. exists b. now split.
  - intros [Hne [b [Hb Out]]]. unfold row_anomaly, lookup in *.
    destruct (positive (oboroty row)) as [|x l]; [congruence|].
    destruct (filter (fun b => (b_klyuch_klienta b =? klyuch_klienta row)%Z) baseline_df)
      as [|b' rest]; [discriminate|].
    injection Hb as ->. cbv zeta.
    assert (Qltb (mean (x :: l)) (ci_lower b) || Qltb (ci_upper b) (mean (x :: l)) = true)
      as F by (apply orb_true_iff; rewrite !Qltb_lt; exact Out).
    rewrite F. discriminate.
Qed.

Lemma narrower_lookup t1 t2 c b2 :
  narrower t1 t2 -> lookup t2 c = Some b2 ->
  exists b1, lookup t1 c = Some b1 /\
             ci_lower b2 <= ci_lower b1 /\ ci_upper b1 <= ci_upper b2.
Proof.
  unfold narrower, lookup. induction 1 as [|b1 b2' l1 l2 [K [L U]] _ IH]; simpl;
    [discriminate|].
  rewrite K. destruct (b_klyuch_klienta b2' =? c)%Z; simpl.
  - intro H. injection H as <-. exists b1. now split.
  - exact IH.
Qed.

Lemma flagged_length df baseline_df :
  length (identify_anomalies df baseline_df)
  = length (filter (fun row => match row_anomaly baseline_df row with
                                | Some _ => true
                                | None => false
                                end) df).
Proof.
  unfold identify_anomalies. induction df as [|row t IH]; simpl; [reflexivity|].
  destruct (row_anomaly baseline_df row); simpl; now rewrite IH.
Qed.

Lemma filter_length_mono (A : Type) (p q : A -> bool) l :
  (forall x, In x l -> p x = true -> q x = true) ->
  (length (filter p l) <= length (filter q l))%nat.
Proof.
  induction l as [|x t IH]; intro H; simpl; [lia|].
  assert (length (filter p t) <= length (filter q t))%nat as IH'
    by (apply IH; intros y Hy; apply H; now right).
  destruct (p x) eqn:P.
  - rewrite (H x (or_introl eq_refl) P). simpl. lia.
  - destruct (q x); simpl; lia.
Qed.

(** X6.  The detector reports at most one anomaly per row of the extract,
    and none for an extract without rows; each reported anomaly belongs to
    a client of the extract and has a positive observed turnover. *)
Theorem at_most_one_anomaly_per_row df baseline_df :
  (length (identify_anomalies df baseline_df) <= length df)%nat /\
  (forall a, In a (identify_anomalies df baseline_df) ->
     In (a_klyuch_klienta a) (map klyuch_klienta df) /\
     0 < tekushchij_oborot a).
Proof.
  split.
  - rewrite flagged_length. apply filter_length_le.
  - intros a Ha. apply identify_anomalies_In in Ha. destruct Ha as [row [Hrow Ha]].
    destruct (row_anomaly_inv baseline_df row a Ha) as [b [_ [Hne H]]].
    cbv zeta in H. destruct H as [_ ->].
    cbn [a_klyuch_klienta tekushchij_oborot].
    split; [now apply in_map|].
    apply mean_pos; [exact Hne|apply positive_pos].
Qed.

(** X7.  Narrowing the bands never loses an anomaly: if a second table
    has, client by client, a lower bound no smaller and an upper bound no
    larger, every row reported against the first table is reported against
    the second, so the number of anomalies does not decrease. *)
Theorem narrower_band_flags_more df t_narrow t_wide :
  narrower t_narrow t_wide ->
  (forall row, row_anomaly t_wide row <> None -> row_anomaly t_narrow row <> None) /\
  (length (identify_anomalies df t_wide) <= length (identify_anomalies df t_narrow))%nat.
Proof.
  intro N.
  assert (forall row, row_anomaly t_wide row <> None -> row_anomaly t_narrow row <> None)
    as Row.
  { intros row H. apply row_anomaly_some_iff in H. destruct H as [Hne [b2 [Hb2 Out]]].
    destruct (narrower_lookup _ _ _ _ N Hb2) as [b1 [Hb1 [L U]]].
    apply row_anomaly_some_iff. split; [exact Hne|]. exists b1.
    split; [exact Hb1|]. destruct Out; [left|right]; lra. }
  split; [exact Row|]. rewrite !flagged_length. apply filter_length_mono.
  intros row _ H. specialize (Row row).
  destruct (row_anomaly t_wide row); [|discriminate].
  destruct (row_anomaly t_narrow row); [reflexivity|].
  exfalso. apply Row; [discriminate|reflexivity].
Qed.

Lemma client_row_cells df row :
  In row df ->
  exists before after,
    client_oborots df (klyuch_klienta row)
    = before ++ positive (oboroty row) ++ after.
Proof.
  unfold client_oborots, client_data. induction df as [|r t IH]; [intros []|].
  intros [->|Hin].
  - simpl. rewrite Z.eqb_refl. simpl. rewrite positive_app.
    exists [], (positive (flat_map oboroty
                     (filter (fun r => (klyuch_klienta r =? klyuch_klienta row)%Z) t))).
    reflexivity.
  - destruct (IH Hin) as [before [after E]]. simpl.
    destruct (klyuch_klienta r =? klyuch_klienta row)%Z.
    + simpl. rewrite positive_app, E.
      exists (positive (oboroty r) ++ before), after. now rewrite <- app_assoc.
    + exists before, after. exact E.
Qed.

Section WithSqrt.

Variable fsqrt : Q -> Q.

(** X8.  A client whose whole history holds a single positive turnover
    cell gets a band that is that one value: lower bound, upper bound and
    mean all equal it, the dispersion ratio is 0 and the concentration 1;
    and no row of that client is ever reported against this table. *)
Theorem single_cell_client df t c v :
  calculate_client_baseline fsqrt df = Ok t ->
  client_oborots df c = [v] ->
  (forall b, In b t -> b_klyuch_klienta b = c ->
     ci_lower b == v /\ ci_upper b == v /\ oborot_mean b == v /\
     cv b == 0 /\ koncentraciya b == 1 /\ tranzakcii_kol b = 1%nat) /\
  (forall row, In row df -> klyuch_klienta row = c -> row_anomaly t row = None).
Proof.
  intros Ht Hc.
  assert (Forall (fun x => x == v) [v]) as Hv by (constructor; [reflexivity|constructor]).
  assert (forall b, In b t -> b_klyuch_klienta b = c ->
            ci_lower b == v /\ ci_upper b == v /\ oborot_mean b == v /\
            cv b == 0 /\ koncentraciya b == 1 /\ tranzakcii_kol b = 1%nat) as Fields.
  { intros b Hb K. pose proof (calculate_In fsqrt df t b Ht Hb) as H. rewrite K in H.
    destruct (client_baseline_fields fsqrt df c b H)
      as [Hne [_ [M [L [U [C [_ T]]]]]]].
    destruct (koncentraciya_range fsqrt df c b H) as [_ [_ One]].
    cbv zeta in *. rewrite Hc in *.
    assert (percentile [v] 15 == v) as P15 by (apply percentile_const; [discriminate|lra..|exact Hv]).
    assert (percentile [v] 85 == v) as P85 by (apply percentile_const; [discriminate|lra..|exact Hv]).
    assert (percentile [v] 65 == v) as P65 by (apply percentile_const; [discriminate|lra..|exact Hv]).
    assert (percentile [v] 35 == v) as P35 by (apply percentile_const; [discriminate|lra..|exact Hv]).
    rewrite L, U, M, T. split; [exact P15|]. split; [exact P85|].
    split; [apply ZBandFacts.mean_single|]. split; [|split; [|reflexivity]].
    - rewrite C. destruct (Qltb 0 (median [v])); [|reflexivity].
      rewrite P65, P35. unfold Qdiv. ring.
    - apply One. simpl. lia. }
  split; [exact Fields|]. intros row Hrow K.
  destruct (lookup t (klyuch_klienta row)) as [b|] eqn:Lk;
    [|now apply DetectorSpec.row_anomaly_absent].
  destruct (lookup_In t _ b Lk) as [Hb Kb]. rewrite K in Kb.
  destruct (Fields b Hb Kb) as [L [U _]].
  destruct (client_row_cells df row Hrow) as [before [after E]].
  rewrite K, Hc in E.
  destruct (positive (oboroty row)) as [|x l] eqn:P.
  - unfold row_anomaly. rewrite P. reflexivity.
  - assert (x :: l = [v]) as Xl.
    { destruct before as [|y before]; simpl in E.
      - injection E as -> E. destruct l; [reflexivity|discriminate].
      - injection E as -> E. destruct before; discriminate. }
    apply (row_anomaly_in_band t row b Lk); rewrite P, Xl, (ZBandFacts.mean_single v); lra.
Qed.

End WithSqrt.

End AnomalyTable.

(** ** More on cohorts and on the run *)

Module CohortTable.
Import Np Preprocessing PipelineSpec Vocabulary.

Lemma seq_sorted len start : StronglySorted lt (seq start len).
Proof.
  revert start. induction len as [|len IH]; intro start; simpl; constructor.
  - apply IH.
  - apply Forall_forall. intros x Hx. apply in_seq in Hx. lia.
Qed.

Lemma filter_sorted (p : nat -> bool) l :
  StronglySorted lt l -> StronglySorted lt (filter p l).
Proof.
  induction 1 as [|x l St IH Hx]; simpl; [constructor|].
  destruct (p x); [|exact IH]. constructor; [exact IH|].
  apply Forall_forall. intros y Hy. apply filter_In in Hy.
  rewrite Forall_forall in Hx. apply Hx. tauto.
Qed.

Lemma list_sum_cons x l : list_sum (x :: l) = (x + list_sum l)%nat.
Proof. reflexivity. Qed.

Lemma indicator_sum k start len :
  list_sum (map (fun l => if Nat.eqb k l then 1%nat else 0%nat) (seq start len))
  = if (start <=? k)%nat && (k <? start + len)%nat then 1%nat else 0%nat.
Proof.
  revert start. induction len as [|len IH]; intro start; cbn [seq map].
  - destruct (start <=? k)%nat eqn:A; destruct (k <? start + 0)%nat eqn:B;
      try reflexivity. apply Nat.leb_le in A. apply Nat.ltb_lt in B. lia.
  - rewrite list_sum_cons, IH.
    destruct (Nat.eqb_spec k start), (Nat.leb_spec (S start) k),
      (Nat.ltb_spec k (S start + len)), (Nat.leb_spec start k),
      (Nat.ltb_spec k (start + S len)); simpl; lia.
Qed.

Lemma list_sum_map_add (A : Type) (f g : A -> nat) l :
  list_sum (map (fun x => (f x + g x)%nat) l)
  = (list_sum (map f l) + list_sum (map g l))%nat.
Proof. induction l as [|x t IH]; simpl; [reflexivity|]. rewrite IH. lia. Qed.

Lemma list_sum_map_ext (A : Type) (f g : A -> nat) l :
  (forall x, In x l -> f x = g x) -> list_sum (map f l) = list_sum (map g l).
Proof.
  induction l as [|x t IH]; intro H; simpl; [reflexivity|].
  rewrite (H x (or_introl eq_refl)), IH; [reflexivity|].
  intros y Hy. apply H. now right.
Qed.

Lemma group_sizes_all t n :
  Forall (fun r => (kogorta r < n)%nat) t ->
  list_sum (map (fun l => length (members_of t l)) (seq 0 n)) = length t.
Proof.
  unfold members_of. induction 1 as [|r t Hr _ IH].
  - simpl. induction (seq 0 n) as [|x l IHl]; simpl; [reflexivity|exact IHl].
  - rewrite (list_sum_map_ext _ _
               (fun l => ((if Nat.eqb (kogorta r) l then 1 else 0)
                          + length (map s_baseline
                                        (filter (fun r => Nat.eqb (kogorta r) l) t)))%nat)).
    + rewrite list_sum_map_add, IH, indicator_sum.
      replace (0 <=? kogorta r)%nat with true by (symmetry; apply Nat.leb_le; lia).
      replace (kogorta r <? 0 + n)%nat with true by (symmetry; apply Nat.ltb_lt; lia).
      reflexivity.
    + intros l _. cbn [filter]. destruct (Nat.eqb (kogorta r) l); reflexivity.
Qed.

Lemma list_sum_filter (f : nat -> nat) (p : nat -> bool) l :
  (forall x, In x l -> p x = false -> f x = 0%nat) ->
  list_sum (map f (filter p l)) = list_sum (map f l).
Proof.
  induction l as [|x t IH]; intro H; simpl; [reflexivity|].
  assert (list_sum (map f (filter p t)) = list_sum (map f t)) as IH'
    by (apply IH; intros y Hy; apply H; now right).
  destruct (p x) eqn:P; simpl; [now rewrite IH'|].
  rewrite (H x (or_introl eq_refl) P). exact IH'.
Qed.

Lemma members_absent t l :
  existsb (Nat.eqb l) (map kogorta t) = false -> length (members_of t l) = 0%nat.
Proof.
  intro H. unfold members_of. rewrite length_map.
  induction t as [|r t IH]; [reflexivity|]. cbn [map existsb] in H.
  apply orb_false_iff in H. destruct H as [H1 H2]. cbn [filter].
  rewrite Nat.eqb_sym, H1. now apply IH.
Qed.

Section WithSqrt.

Variable fsqrt : Q -> Q.

(** X10.  Whatever the labels, the cohort profiles come in strictly
    increasing cohort number; each profile counts the rows carrying its
    label, which are at least one; and the sizes add up to the number of
    rows of the segmented table: every client is counted in exactly one
    cohort. *)
Theorem cohort_sizes_partition t :
  StronglySorted lt (map p_kogorta (calculate_cohort_profiles fsqrt t)) /\
  (forall p, In p (calculate_cohort_profiles fsqrt t) ->
     razmer_kogorty p = length (members_of t (p_kogorta p)) /\
     (1 <= razmer_kogorty p)%nat) /\
  list_sum (map razmer_kogorty (calculate_cohort_profiles fsqrt t)) = length t.
Proof.
  assert (map p_kogorta (calculate_cohort_profiles fsqrt t) = cohort_ids t) as Ids.
  { unfold calculate_cohort_profiles. rewrite map_map. cbn [p_kogorta cohort_profile].
    apply map_id. }
  split; [|split].
  - rewrite Ids. unfold cohort_ids. apply filter_sorted, seq_sorted.
  - intros p Hp. unfold calculate_cohort_profiles in Hp. apply in_map_iff in Hp.
    destruct Hp as [l [<- Hl]]. cbn [razmer_kogorty p_kogorta cohort_profile].
    split; [reflexivity|]. apply cohort_ids_spec in Hl. destruct Hl as [r [Hr K]].
    assert (In r (filter (fun r => Nat.eqb (kogorta r) l) t)) as Hin
      by (apply filter_In; split; [exact Hr|now apply Nat.eqb_eq]).
    rewrite length_map.
    destruct (filter (fun r => Nat.eqb (kogorta r) l) t); [destruct Hin|simpl; lia].
  - unfold calculate_cohort_profiles. rewrite map_map.
    cbn [razmer_kogorty cohort_profile].
    change (list_sum (map (fun l => length (members_of t l)) (cohort_ids t)) = length t).
    unfold cohort_ids. rewrite list_sum_filter.
    + apply group_sizes_all. apply Forall_forall. intros r Hr.
      pose proof (proj1 (list_max_le (map kogorta t) (list_max (map kogorta t)))
                    (Nat.le_refl _)) as M.
      rewrite Forall_forall in M. specialize (M (kogorta r) (in_map kogorta t r Hr)). lia.
    + intros l _. apply members_absent.
Qed.

Lemma rint_error y : Qabs (inject_Z (rint y) - y) <= 1 # 2.
Proof.
  unfold rint. pose proof (Qfloor_le y) as Fl. pose proof (Qlt_floor y) as Fu.
  rewrite inject_Z_plus in Fu. change (inject_Z 1) with 1 in Fu.
  apply Qabs_Qle_condition.
  destruct (Qcompare (y - inject_Z (Qfloor y)) (1 # 2)) eqn:E.
  - apply Qeq_alt in E. destruct (Z.even (Qfloor y)).
    + lra.
    + rewrite inject_Z_plus. change (inject_Z 1) with 1. lra.
  - apply Qlt_alt in E. lra.
  - apply Qgt_alt in E. rewrite inject_Z_plus. change (inject_Z 1) with 1. lra.
Qed.

Lemma round2_error x : Qabs (round2 x - x) <= 1 # 200.
Proof.
  unfold round2. pose proof (rint_error (x * 100)) as H.
  apply Qabs_Qle_condition in H. apply Qabs_Qle_condition.
  set (r := inject_Z (rint (x * 100))) in *.
  assert (r / 100 == r * (1 # 100)) as E by (unfold Qdiv; reflexivity).
  rewrite E. lra.
Qed.

(** X12.  Rounding to two decimals moves a value by at most 0.005: every
    rounded figure of a cohort profile (mean and median turnover, mean
    dispersion ratio, mean concentration, mean activity count) is within
    0.005 of the exact aggregate over the members of the cohort. *)
Theorem profile_rounding_error t p :
  In p (calculate_cohort_profiles fsqrt t) ->
  let members := members_of t (p_kogorta p) in
  Qabs (srednij_oborot p - mean (map oborot_mean members)) <= 1 # 200 /\
  Qabs (mediana_oborota p - median (map oborot_mean members)) <= 1 # 200 /\
  Qabs (srednij_cv p - mean (map cv members)) <= 1 # 200 /\
  Qabs (srednyaya_koncentraciya p - mean (map koncentraciya members)) <= 1 # 200 /\
  Qabs (srednie_tranzakcii p
        - mean (map (fun b => inject_Z (Z.of_nat (tranzakcii_kol b))) members))
  <= 1 # 200.
Proof.
  intro Hp. unfold calculate_cohort_profiles in Hp. apply in_map_iff in Hp.
  destruct Hp as [l [<- _]]. cbv zeta.
  cbn [srednij_oborot mediana_oborota srednij_cv srednyaya_koncentraciya
       srednie_tranzakcii p_kogorta cohort_profile].
  unfold members_of. repeat split; apply round2_error.
Qed.

Variable fit_predict : nat -> list (list Q) -> res (list nat).

(** X13.  With a clustering that refuses to form more clusters than there
    are samples, a run whose baseline table has fewer than eight clients
    fails and leaves the file system as it was. *)
Theorem fewer_than_eight_clients df t fs :
  (forall k X, (length X < k)%nat -> exists e, fit_predict k X = Raise e) ->
  calculate_client_baseline fsqrt df = Ok t ->
  (length t < 8)%nat ->
  main fsqrt fit_predict (Ok df) fs = (false, fs).
Proof.
  intros Refuse Ht Small. rewrite main_outcome. unfold tables. rewrite Ht.
  destruct (length t =? 0)%nat; [reflexivity|].
  unfold segment_clients_hierarchical. destruct t as [|b0 bs]; [reflexivity|].
  destruct (Refuse 8%nat (standard_scale fsqrt (map features (b0 :: bs)))) as [e ->];
    [|reflexivity].
  now rewrite standard_scale_length, length_map.
Qed.

End WithSqrt.

End CohortTable.

(** ** The scaler *)

Module ScalerFacts.
Import Np Preprocessing.

Lemma sum_affine (A : Type) (f : A -> Q) (m k : Q) (X : list A) :
  sum (map (fun x => (f x - m) * k) X)
  == (sum (map f X) - inject_Z (Z.of_nat (length X)) * m) * k.
Proof.
  induction X as [|x X IH].
  - cbn [map sum length Z.of_nat]. change (inject_Z 0) with 0. ring.
  - cbn [map sum length]. rewrite IH, Nat2Z.inj_succ. unfold Z.succ.
    rewrite inject_Z_plus. change (inject_Z 1) with 1. ring.
Qed.

Lemma nth_map_seq4 (h : nat -> Q) j :
  (j < 4)%nat -> nth j (map h (seq 0 4)) 0 = h j.
Proof.
  intro H. destruct j as [|[|[|[|j]]]]; try reflexivity. lia.
Qed.

Section WithSqrt.

Variable fsqrt : Q -> Q.

Lemma column_scaled X j :
  (j < 4)%nat ->
  column (standard_scale fsqrt X) j
  = map (fun x => (nth j x 0 - mean (column X j))
                  / (let s := fsqrt (var (column X j)) in
                     if Qeq_bool s 0 then 1 else s)) X.
Proof.
  intro Hj. unfold standard_scale. unfold column at 1. rewrite map_map.
  apply map_ext. intro x. now rewrite nth_map_seq4.
Qed.

(** X11.  The scaler returns one vector of four features per client, and
    every feature column of its result has mean zero, whatever the square
    root returns. *)
Theorem scaled_columns_centred X :
  length (standard_scale fsqrt X) = length X /\
  Forall (fun x => length x = 4%nat) (standard_scale fsqrt X) /\
  (X <> [] ->
   forall j, (j < 4)%nat -> mean (column (standard_scale fsqrt X) j) == 0).
Proof.
  split; [apply length_map|]. split.
  - unfold standard_scale. apply Forall_forall. intros x Hx.
    apply in_map_iff in Hx. destruct Hx as [x0 [<- _]]. now rewrite length_map.
  - intros Hne j Hj. rewrite (column_scaled X j Hj).
    set (m := mean (column X j)).
    set (sc := let s := fsqrt (var (column X j)) in if Qeq_bool s 0 then 1 else s).
    unfold mean at 1. unfold Qdiv at 2.
    rewrite (sum_affine (list Q) (fun x => nth j x 0) m (/ sc) X).
    assert (0 < inject_Z (Z.of_nat (length X))) as Npos.
    { change 0 with (inject_Z 0). rewrite <- Zlt_Qlt. destruct X; simpl; [congruence|lia]. }
    assert (sum (map (fun x => nth j x 0) X) - inject_Z (Z.of_nat (length X)) * m == 0)
      as Z0.
    { unfold m, mean, len, column. rewrite length_map. field. lra. }
    rewrite Z0. unfold Qdiv. ring.
Qed.

End WithSqrt.

End ScalerFacts.

(** ** More on the z-band pipeline *)

Module ZBandTable.
Import Np Timeseries ZBandFacts.

Lemma Zinsert_sorted x l : StronglySorted Z.lt l -> StronglySorted Z.lt (Zinsert x l).
Proof.
  induction 1 as [|y t St IH Hy]; simpl; [repeat constructor|].
  destruct (Z.ltb_spec x y) as [L|G].
  - constructor; [now constructor|]. constructor; [exact L|].
    eapply Forall_impl; [|exact Hy]. intros z Hz. cbv beta in Hz. lia.
  - destruct (Z.eqb_spec x y) as [E|N]; [now constructor|].
    constructor; [exact IH|]. apply Forall_forall. intros z Hz.
    apply Zinsert_In in Hz. destruct Hz as [->|Hz]; [lia|].
    rewrite Forall_forall in Hy. now apply Hy.
Qed.

Lemma group_keys_sorted l : StronglySorted Z.lt (group_keys l).
Proof.
  induction l as [|x t IH]; simpl; [constructor|now apply Zinsert_sorted].
Qed.

Lemma sorted_NoDup l : StronglySorted Z.lt l -> NoDup l.
Proof.
  induction 1 as [|x t St IH Hx]; constructor; [|exact IH].
  intro Hin. rewrite Forall_forall in Hx. specialize (Hx x Hin). lia.
Qed.

Lemma min_of_le x t : min_of x t <= x /\ Forall (fun y => min_of x t <= y) t.
Proof.
  unfold min_of. revert x. induction t as [|y t IH]; intro x; simpl.
  - split; [lra|constructor].
  - destruct (IH (Qmin x y)) as [A B].
    pose proof (Q.le_min_l x y). pose proof (Q.le_min_r x y).
    split; [lra|]. constructor; [lra|exact B].
Qed.

Lemma max_of_ge x t : x <= max_of x t /\ Forall (fun y => y <= max_of x t) t.
Proof.
  unfold max_of. revert x. induction t as [|y t IH]; intro x; simpl.
  - split; [lra|constructor].
  - destruct (IH (Qmax x y)) as [A B].
    pose proof (Q.le_max_l x y). pose proof (Q.le_max_r x y).
    split; [lra|]. constructor; [lra|exact B].
Qed.

Lemma filter_singleton (A : Type) (key : A -> Z) (l : list A) (x : A) :
  NoDup (map key l) -> In x l ->
  filter (fun y => Z.eqb (key y) (key x)) l = [x].
Proof.
  induction l as [|y t IH]; [intros _ []|].
  cbn [map filter]. intros N Hin. inversion N as [|? ? Hy Ht]; subst.
  destruct Hin as [->|Hin].
  - rewrite Z.eqb_refl. f_equal.
    destruct (filter (fun y => (key y =? key x)%Z) t) as [|z r] eqn:E; [reflexivity|].
    assert (In z (filter (fun y => (key y =? key x)%Z) t)) as Hz by (rewrite E; now left).
    apply filter_In in Hz. destruct Hz as [Hz K]. apply Z.eqb_eq in K.
    exfalso. apply Hy. rewrite <- K. now apply in_map.
  - destruct (Z.eqb_spec (key y) (key x)) as [E|_]; [|now apply IH].
    exfalso. apply Hy. rewrite E. now apply in_map.
Qed.

Section WithSqrt.

Variable fsqrt : Q -> Q.

Lemma client_statistics_present df c :
  In c (map klyuch_klienta df) ->
  exists s, client_statistics fsqrt (add_total df) c = [s] /\ s_klyuch_klienta s = c.
Proof.
  intro Hc. unfold client_statistics. rewrite add_total_group.
  apply in_map_iff in Hc. destruct Hc as [r [K Hr]].
  assert (In r (filter (fun r => (klyuch_klienta r =? c)%Z) df)) as Hin
    by (apply filter_In; split; [exact Hr|now apply Z.eqb_eq]).
  destruct (filter (fun r => (klyuch_klienta r =? c)%Z) df) as [|r0 g]; [destruct Hin|].
  cbn [add_total map]. eexists. split; reflexivity.
Qed.

Lemma stats_keys df :
  map s_klyuch_klienta (snd (calculate_client_statistics fsqrt df))
  = group_keys (map klyuch_klienta df).
Proof.
  unfold calculate_client_statistics. cbn [snd].
  assert (forall k, In k (group_keys (map klyuch_klienta df)) ->
                    In k (map klyuch_klienta df)) as Sub
    by (intros k Hk; exact (proj1 (group_keys_In _ _) Hk)).
  induction (group_keys (map klyuch_klienta df)) as [|k l IH]; [reflexivity|].
  cbn [flat_map]. destruct (client_statistics_present df k) as [s [E K]];
    [apply Sub; now left|].
  rewrite E. cbn [app map]. rewrite K. f_equal. apply IH.
  intros k' Hk'. apply Sub. now right.
Qed.

(** X14.  The client statistics hold one row per client of the extract, in
    strictly increasing client key: no client is left out and none appears
    twice. *)
Theorem statistics_one_row_per_client df :
  let stats := snd (calculate_client_statistics fsqrt df) in
  StronglySorted Z.lt (map s_klyuch_klienta stats) /\
  NoDup (map s_klyuch_klienta stats) /\
  (forall c, In c (map s_klyuch_klienta stats) <-> In c (map klyuch_klienta df)).
Proof.
  cbv zeta. rewrite stats_keys.
  split; [apply group_keys_sorted|]. split; [apply sorted_NoDup, group_keys_sorted|].
  intro c. apply group_keys_In.
Qed.

(** X15.  In every row of the client statistics the recorded minimum and
    maximum bound the total turnover of every period of that client, the
    minimum does not exceed the maximum, and the number of periods is the
    number of the client's rows in the extract, at least one. *)
Theorem totals_between_min_and_max df s :
  In s (snd (calculate_client_statistics fsqrt df)) ->
  (forall r, In r (fst (calculate_client_statistics fsqrt df)) ->
             klyuch_klienta (t_row r) = s_klyuch_klienta s ->
             oborot_min s <= obshchij_oborot r /\ obshchij_oborot r <= oborot_max s) /\
  oborot_min s <= oborot_max s /\
  periodov s
  = length (filter (fun r => Z.eqb (klyuch_klienta r) (s_klyuch_klienta s)) df) /\
  (1 <= periodov s)%nat.
Proof.
  intro Hs. apply stats_In in Hs. destruct Hs as [_ Hs].
  unfold client_statistics in Hs.
  assert (length (map obshchij_oborot
                      (filter (fun r => (klyuch_klienta (t_row r) =? s_klyuch_klienta s)%Z)
                              (add_total df)))
          = length (filter (fun r => Z.eqb (klyuch_klienta r) (s_klyuch_klienta s)) df))
    as Len by (rewrite add_total_group; unfold add_total; now rewrite !length_map).
  assert (forall r, In r (add_total df) ->
            klyuch_klienta (t_row r) = s_klyuch_klienta s ->
            In (obshchij_oborot r)
               (map obshchij_oborot
                    (filter (fun r => (klyuch_klienta (t_row r) =? s_klyuch_klienta s)%Z)
                            (add_total df)))) as Mem.
  { intros r Hr K. apply in_map. apply filter_In. split; [exact Hr|now apply Z.eqb_eq]. }
  destruct (map obshchij_oborot
              (filter (fun r => (klyuch_klienta (t_row r) =? s_klyuch_klienta s)%Z)
                      (add_total df))) as [|x t]; [destruct Hs|].
  destruct Hs as [E|[]]. rewrite <- E in *.
  cbn [oborot_min oborot_max periodov s_klyuch_klienta] in *.
  destruct (min_of_le x t) as [A B]. destruct (max_of_ge x t) as [C D].
  rewrite Forall_forall in B, D.
  split; [|split; [lra|split; [exact Len|simpl; lia]]].
  intros r Hr K. cbn [calculate_client_statistics fst] in Hr.
  destruct (Mem r Hr K) as [<-|Hin]; [split; lra|].
  split; [now apply B|now apply D].
Qed.

Lemma merge_rows (df : list TRow) stats :
  NoDup (map s_klyuch_klienta stats) ->
  (forall r, In r df -> In (klyuch_klienta (t_row r)) (map s_klyuch_klienta stats)) ->
  map m_row (calculate_anomaly_metrics df stats) = df.
Proof.
  intros N Hall. unfold calculate_anomaly_metrics.
  induction df as [|r t IH]; [reflexivity|].
  cbn [flat_map]. rewrite map_app, IH by (intros r' Hr'; apply Hall; now right).
  destruct (proj1 (in_map_iff _ _ _) (Hall r (or_introl eq_refl))) as [s [K Hs]].
  rewrite <- K. rewrite (filter_singleton _ s_klyuch_klienta stats s N Hs).
  reflexivity.
Qed.

(** X16.  The merge of the extract with the client statistics loses no
    row and adds none: the merged frame has the rows of the extract, each
    once and in the order of the extract. *)
Theorem merge_keeps_every_row df :
  let df' := fst (calculate_client_statistics fsqrt df) in
  let stats := snd (calculate_client_statistics fsqrt df) in
  map m_row (calculate_anomaly_metrics df' stats) = df' /\
  map t_row df' = df /\
  length (calculate_anomaly_metrics df' stats) = length df.
Proof.
  cbv zeta.
  assert (map t_row (add_total df) = df) as Rows.
  { unfold add_total. rewrite map_map. cbn [t_row]. apply map_id. }
  assert (map m_row (calculate_anomaly_metrics
                       (fst (calculate_client_statistics fsqrt df))
                       (snd (calculate_client_statistics fsqrt df)))
          = fst (calculate_client_statistics fsqrt df)) as M.
  { apply merge_rows.
    - rewrite stats_keys. apply sorted_NoDup, group_keys_sorted.
    - intros r Hr. rewrite stats_keys. apply group_keys_In.
      cbn [calculate_client_statistics fst] in Hr. rewrite <- Rows at 1.
      rewrite map_map. apply in_map_iff. exists r. now split. }
  split; [exact M|]. split; [exact Rows|].
  rewrite <- (length_map m_row), M. cbn [calculate_client_statistics fst].
  unfold add_total. apply length_map.
Qed.

(** X17.  When the square root is never negative, the deviation of every
    client is non-negative and the band reaches from at most the mean to at
    least the mean whenever the mean is not negative: lower bound <= mean
    <= upper bound, with the lower bound at least 0. *)
Theorem band_contains_mean df s :
  (forall x, 0 <= fsqrt x) ->
  In s (snd (calculate_client_statistics fsqrt df)) ->
  0 <= oborot_std s /\
  oborot_mean s <= ci_upper s /\
  0 <= ci_lower s /\
  (0 <= oborot_mean s -> ci_lower s <= oborot_mean s).
Proof.
  intros Pos Hs. apply stats_In in Hs. destruct Hs as [_ Hs].
  unfold client_statistics in Hs.
  destruct (map obshchij_oborot
              (filter (fun r => (klyuch_klienta (t_row r) =? s_klyuch_klienta s)%Z)
                      (add_total df))) as [|x t]; [destruct Hs|].
  destruct Hs as [<-|[]]. cbn [oborot_std oborot_mean ci_lower ci_upper].
  assert (0 <= fillna0 (group_std fsqrt (x :: t))) as S.
  { unfold group_std. destruct (length (x :: t) <? 2)%nat; cbn [fillna0]; [lra|apply Pos]. }
  assert (0 < z_score) as Z by reflexivity.
  set (sd := fillna0 (group_std fsqrt (x :: t))) in *.
  set (m := mean (x :: t)).
  assert (0 <= z_score * sd) as ZS by (apply Qmult_le_0_compat; lra).
  split; [exact S|]. split; [lra|]. split; [apply Q.le_max_r|].
  intro M. apply Q.max_lub; lra.
Qed.

End WithSqrt.

End ZBandTable.

(** ** The report of the z-band pipeline *)

Module ReportFacts.
Import Np Timeseries TimeseriesReport ZBandFacts.

Lemma filter_length_or (A : Type) (p q1 q2 : A -> bool) l :
  (forall x, In x l -> p x = q1 x || q2 x) ->
  (length (filter p l) <= length (filter q1 l) + length (filter q2 l))%nat /\
  ((forall x, In x l -> q1 x && q2 x = false) ->
   length (filter p l) = (length (filter q1 l) + length (filter q2 l))%nat).
Proof.
  induction l as [|x t IH]; intro H; [split; [simpl; lia|reflexivity]|].
  destruct IH as [IH1 IH2]; [intros y Hy; apply H; now right|].
  cbn [filter]. rewrite (H x (or_introl eq_refl)). split.
  - destruct (q1 x), (q2 x); simpl; lia.
  - intro D. specialize (IH2 (fun y Hy => D y (or_intror Hy))).
    specialize (D x (or_introl eq_refl)).
    destruct (q1 x), (q2 x); simpl in *; try discriminate; lia.
Qed.

(** X18.  In the report, every flagged row of the merged frame is counted
    as high or as low; when no band is inverted (lower bound <= upper
    bound in every row) it is counted once, so the two counts add up to the
    number of rows written to the anomalies file.  No client is counted both
    as highly volatile and as stable. *)
Theorem report_counts df client_stats :
  let merged := calculate_anomaly_metrics df client_stats in
  let report := generate_report client_stats merged in
  (length (anomalies merged) <= anomalies_high report + anomalies_low report)%nat /\
  ((forall r, In r merged -> m_ci_lower r <= m_ci_upper r) ->
   length (anomalies merged) = (anomalies_high report + anomalies_low report)%nat) /\
  (high_cv report + stable report <= length client_stats)%nat.
Proof.
  cbv zeta. unfold generate_report, anomalies.
  cbn [anomalies_high anomalies_low high_cv stable].
  set (merged := calculate_anomaly_metrics df client_stats).
  set (hi := fun r => Z.eqb (is_anomaly r) 1
                      && Qltb (m_ci_upper r) (obshchij_oborot (m_row r))).
  set (lo := fun r => Z.eqb (is_anomaly r) 1
                      && Qltb (obshchij_oborot (m_row r)) (m_ci_lower r)).
  assert (forall r, In r merged ->
            Z.eqb (is_anomaly r) 1
            = Qltb (obshchij_oborot (m_row r)) (m_ci_lower r)
              || Qltb (m_ci_upper r) (obshchij_oborot (m_row r))) as Flag.
  { intros r Hr. destruct (calculate_anomaly_metrics_In df client_stats r Hr)
      as [row [s [_ [_ [_ [R [L [U [_ [A _]]]]]]]]]].
    rewrite R, L, U, A.
    destruct (Qltb (obshchij_oborot row) (ci_lower s) || Qltb (ci_upper s) (obshchij_oborot row));
      reflexivity. }
  destruct (filter_length_or _ (fun r => Z.eqb (is_anomaly r) 1) hi lo merged) as [Le Eq].
  { intros r Hr. unfold hi, lo. rewrite (Flag r Hr).
    destruct (Qltb (obshchij_oborot (m_row r)) (m_ci_lower r)),
             (Qltb (m_ci_upper r) (obshchij_oborot (m_row r))); reflexivity. }
  split; [exact Le|]. split.
  - intro Ord. apply Eq. intros r Hr. unfold hi, lo.
    destruct (Qltb (m_ci_upper r) (obshchij_oborot (m_row r))) eqn:E1;
      destruct (Qltb (obshchij_oborot (m_row r)) (m_ci_lower r)) eqn:E2;
      rewrite ?andb_true_r, ?andb_false_r; try reflexivity.
    apply Qltb_lt in E1, E2. specialize (Ord r Hr). lra.
  - clear. induction client_stats as [|s t IH]; [simpl; lia|]. cbn [filter length].
    destruct (Qltb (5 # 10) (cv s)) eqn:E1; destruct (Qltb (cv s) (2 # 10)) eqn:E2;
      cbn [length]; try lia.
    apply Qltb_lt in E1, E2. lra.
Qed.

End ReportFacts.

(** ** The forecast scenarios of the dashboards *)

Module ForecastFacts.
Import Np.

Lemma growth_factor_nonneg g : (-100 <= g)%Z -> 0 <= 1 + inject_Z g / 100.
Proof.
  intro H. assert (inject_Z (-100) <= inject_Z g) as A by (rewrite <- Zle_Qle; exact H).
  change (inject_Z (-100)) with (-100) in A.
  assert (inject_Z g / 100 == inject_Z g * (1 # 100)) as E by (unfold Qdiv; reflexivity).
  rewrite E. lra.
Qed.

Lemma power_step x m : x ^ Z.of_nat (S m) == x ^ Z.of_nat m * x.
Proof.
  rewrite Nat2Z.inj_succ. unfold Z.succ. rewrite Qpower_plus' by lia.
  change (x ^ 1) with x. reflexivity.
Qed.

(** X19.  In the scenarios of app_final.py, for a client whose mean is not
    negative and whose lower bound does not exceed its upper bound, and a
    growth of at least -100 percent, every month's forecast band is
    well-formed: 0 <= lower bound <= forecast mean <= upper bound, and the
    forecast volatility is not negative. *)
Theorem final_band_brackets_forecast client g v m :
  (-100 <= g)%Z ->
  0 <= Preprocessing.oborot_mean client ->
  Preprocessing.ci_lower client <= Preprocessing.ci_upper client ->
  let sc := AppFinal.scenario client g v m in
  0 <= AppFinal.ci_lower sc /\
  AppFinal.ci_lower sc <= AppFinal.oborot sc /\
  AppFinal.oborot sc <= AppFinal.ci_upper sc /\
  0 <= AppFinal.volatilnost sc.
Proof.
  intros Hg Hm Hb. cbv zeta. unfold AppFinal.scenario.
  cbn [AppFinal.ci_lower AppFinal.ci_upper AppFinal.oborot AppFinal.volatilnost].
  set (mf := Preprocessing.oborot_mean client * (1 + inject_Z g / 100) ^ Z.of_nat m).
  set (cvf := Qmax 0 (Preprocessing.cv client * (1 + inject_Z v / 100) ^ Z.of_nat m)).
  assert (0 <= mf) as Mf.
  { unfold mf. apply Qmult_le_0_compat; [exact Hm|].
    apply Qpower_0_le, growth_factor_nonneg, Hg. }
  assert (0 <= cvf) as Cf by (unfold cvf; apply Q.le_max_l).
  split; [apply Q.le_max_l|].
  destruct (Qltb 0 (Preprocessing.cv client)) eqn:E.
  - apply Qltb_lt in E.
    set (half := (Preprocessing.ci_upper client - Preprocessing.ci_lower client) / 2
                 * (cvf / Preprocessing.cv client)).
    assert (0 <= half) as H.
    { unfold half. apply Qmult_le_0_compat.
      - apply Qle_shift_div_l; lra.
      - apply Qle_shift_div_l; [exact E|lra]. }
    split; [apply Q.max_lub; lra|]. split; [lra|exact Cf].
  - split; [|split; [lra|exact Cf]].
    apply Q.max_lub; [exact Mf|]. apply Q.max_lub; lra.
Qed.

(** X20.  In the scenarios of main.py, for a client whose mean and
    dispersion ratio are not negative and for a growth and a volatility
    change of at least -100 percent, every month's forecast band is
    well-formed: 0 <= lower bound <= forecast mean <= upper bound. *)
Theorem main_band_brackets_forecast client g v m :
  (-100 <= g)%Z -> (-100 <= v)%Z ->
  0 <= Preprocessing.oborot_mean client ->
  0 <= Preprocessing.cv client ->
  let sc := AppMain.scenario client g v m in
  0 <= AppFinal.ci_lower sc /\
  AppFinal.ci_lower sc <= AppFinal.oborot sc /\
  AppFinal.oborot sc <= AppFinal.ci_upper sc /\
  0 <= AppFinal.volatilnost sc.
Proof.
  intros Hg Hv Hm Hc. cbv zeta. unfold AppMain.scenario.
  cbn [AppFinal.ci_lower AppFinal.ci_upper AppFinal.oborot AppFinal.volatilnost].
  set (mf := Preprocessing.oborot_mean client * (1 + inject_Z g / 100) ^ Z.of_nat m).
  set (cvf := Preprocessing.cv client * (1 + inject_Z v / 100) ^ Z.of_nat m).
  assert (0 <= mf) as Mf.
  { unfold mf. apply Qmult_le_0_compat; [exact Hm|].
    apply Qpower_0_le, growth_factor_nonneg, Hg. }
  assert (0 <= cvf) as Cf.
  { unfold cvf. apply Qmult_le_0_compat; [exact Hc|].
    apply Qpower_0_le, growth_factor_nonneg, Hv. }
  split; [apply Q.le_max_l|]. split; [|split; [|exact Cf]].
  - apply Q.max_lub; [exact Mf|]. nra.
  - nra.
Qed.

(** X21.  Both dashboards start the forecast at the present: the scenario
    of month 0 carries the client's mean; and from one month to the next
    the forecast mean is multiplied by 1 + growth/100, so for a client of
    non-negative mean it never decreases under a non-negative growth and
    never increases under a growth between -100 and 0 percent. *)
Theorem forecast_mean_compounds client g v m :
  AppFinal.oborot (AppFinal.scenario client g v 0) == Preprocessing.oborot_mean client /\
  AppFinal.oborot (AppMain.scenario client g v m)
  = AppFinal.oborot (AppFinal.scenario client g v m) /\
  AppFinal.oborot (AppFinal.scenario client g v (S m))
  == AppFinal.oborot (AppFinal.scenario client g v m) * (1 + inject_Z g / 100) /\
  (0 <= Preprocessing.oborot_mean client -> (0 <= g)%Z ->
   AppFinal.oborot (AppFinal.scenario client g v m)
   <= AppFinal.oborot (AppFinal.scenario client g v (S m))) /\
  (0 <= Preprocessing.oborot_mean client -> (-100 <= g <= 0)%Z ->
   AppFinal.oborot (AppFinal.scenario client g v (S m))
   <= AppFinal.oborot (AppFinal.scenario client g v m)).
Proof.
  unfold AppFinal.scenario, AppMain.scenario. cbn [AppFinal.oborot].
  set (x := 1 + inject_Z g / 100).
  assert (Preprocessing.oborot_mean client * x ^ Z.of_nat (S m)
          == Preprocessing.oborot_mean client * x ^ Z.of_nat m * x) as Step
    by (rewrite power_step; ring).
  split; [change (x ^ Z.of_nat 0) with 1; ring|]. split; [reflexivity|].
  split; [exact Step|].
  assert (inject_Z g / 100 == inject_Z g * (1 # 100)) as E by (unfold Qdiv; reflexivity).
  split.
  - intros Hm Hg. rewrite Step.
    assert (0 <= inject_Z g) as G by (change 0 with (inject_Z 0); rewrite <- Zle_Qle; exact Hg).
    assert (0 <= x ^ Z.of_nat m) as P by (apply Qpower_0_le; unfold x; lra).
    assert (0 <= Preprocessing.oborot_mean client * x ^ Z.of_nat m) as MP
      by (apply Qmult_le_0_compat; assumption).
    assert (1 <= x) as X1 by (unfold x; lra).
    set (y := Preprocessing.oborot_mean client * x ^ Z.of_nat m) in *. nra.
  - intros Hm [Hg1 Hg2]. rewrite Step.
    assert (inject_Z g <= 0) as G by (change 0 with (inject_Z 0); rewrite <- Zle_Qle; exact Hg2).
    pose proof (growth_factor_nonneg g Hg1) as X0. fold x in X0.
    assert (0 <= x ^ Z.of_nat m) as P by (apply Qpower_0_le; exact X0).
    assert (0 <= Preprocessing.oborot_mean client * x ^ Z.of_nat m) as MP
      by (apply Qmult_le_0_compat; assumption).
    assert (x <= 1) as X1 by (unfold x; lra).
    set (y := Preprocessing.oborot_mean client * x ^ Z.of_nat m) in *. nra.
Qed.

End ForecastFacts.

(** ** Runs that stop early *)

Module RunFacts.
Import Np Preprocessing BaselineFacts PipelineSpec.

Section WithLibraries.

Variable fsqrt : Q -> Q.
Variable fit_predict : nat -> list (list Q) -> res (list nat).

Lemma first_vozrast_missing df c :
  (forall r, In r df -> vozrast r = None) -> first_vozrast (client_data df c) = None.
Proof.
  intro H. unfold client_data.
  destruct (filter (fun r => (klyuch_klienta r =? c)%Z) df) as [|r l] eqn:E;
    [reflexivity|].
  assert (In r (filter (fun r => (klyuch_klienta r =? c)%Z) df)) as Hr
    by (rewrite E; now left).
  apply filter_In in Hr. cbn [first_vozrast]. apply H. tauto.
Qed.

(** X22.  When the age is missing in every row of the extract, the
    calculator returns an empty table if any client has a positive turnover
    (every collected row is dropped for its missing age), and the run stops
    with the result [False] before clustering, leaving the file system as it
    was. *)
Theorem ages_missing_stops_run df fs :
  (forall r, In r df -> vozrast r = None) ->
  (forall t, calculate_client_baseline fsqrt df = Ok t -> t = []) /\
  main fsqrt fit_predict (Ok df) fs = (false, fs).
Proof.
  intro H.
  assert (forall t, calculate_client_baseline fsqrt df = Ok t -> t = []) as Empty.
  { intros t Ht. destruct t as [|b t']; [reflexivity|]. exfalso.
    apply (BaselineTable.table_row_has_age fsqrt df (b :: t') b Ht (or_introl eq_refl)).
    now apply first_vozrast_missing. }
  split; [exact Empty|]. rewrite main_outcome. unfold tables.
  destruct (calculate_client_baseline fsqrt df) as [t|e] eqn:E; [|reflexivity].
  rewrite (Empty t eq_refl). reflexivity.
Qed.

End WithLibraries.

End RunFacts.

(** ** The further theorems at work *)

Module WorkedMore.
Import Np Preprocessing Examples MoreExamples Vocabulary.

Lemma outlier_table :
  calculate_client_baseline sqrt6 df_outlier = Ok (baseline_of df_outlier).
Proof. vm_compute. reflexivity. Qed.

Lemma outlier_row : In (first_baseline df_outlier) (baseline_of df_outlier).
Proof. left. reflexivity. Qed.

Lemma sqrt6_nonneg x : 0 <= sqrt6 x.
Proof.
  unfold sqrt6. apply Qle_shift_div_l; [reflexivity|].
  change (0 * 1000000) with (inject_Z 0). rewrite <- Zle_Qle. apply Z.sqrt_nonneg.
Qed.

Lemma ward_refuses k X :
  (length X < k)%nat -> exists e, Ward.fit_predict k X = Raise e.
Proof.
  intro H. unfold Ward.fit_predict.
  destruct (length X <? 2)%nat; [eexists; reflexivity|].
  destruct (k =? 0)%nat; [eexists; reflexivity|].
  apply Nat.ltb_lt in H. rewrite H. eexists. reflexivity.
Qed.

Lemma table_one_row_per_client_witness :
  calculate_client_baseline sqrt6 df_outlier = Ok (baseline_of df_outlier) /\
  NoDup (map b_klyuch_klienta (baseline_of df_outlier)).
Proof.
  split; [exact outlier_table|].
  exact (proj1 (BaselineTable.table_one_row_per_client sqrt6 df_outlier _ outlier_table)).
Defined.

Lemma table_rows_have_turnover_and_age_witness :
  calculate_client_baseline sqrt6 df_idle_and_active = Ok (baseline_of df_idle_and_active) /\
  client_oborots df_idle_and_active 1 = [] /\
  forall b, In b (baseline_of df_idle_and_active) -> b_klyuch_klienta b <> 1%Z.
Proof.
  assert (calculate_client_baseline sqrt6 df_idle_and_active
          = Ok (baseline_of df_idle_and_active)) as H1 by (vm_compute; reflexivity).
  assert (client_oborots df_idle_and_active 1 = []) as H2 by reflexivity.
  split; [exact H1|]. split; [exact H2|].
  exact (proj2 (BaselineTable.table_rows_have_turnover_and_age sqrt6 df_idle_and_active _ H1)
           1%Z (or_introl H2)).
Defined.

Lemma band_within_observations_witness :
  calculate_client_baseline sqrt6 df_outlier = Ok (baseline_of df_outlier) /\
  In (first_baseline df_outlier) (baseline_of df_outlier) /\
  0 < ci_lower (first_baseline df_outlier) /\
  (1 <= tranzakcii_kol (first_baseline df_outlier))%nat.
Proof.
  split; [exact outlier_table|]. split; [exact outlier_row|].
  destruct (BaselineTable.band_within_observations sqrt6 df_outlier _ _
              outlier_table outlier_row) as [_ [_ [A [_ [_ [B _]]]]]].
  split; [exact A|exact B].
Defined.

Lemma concentration_of_few_cells_witness :
  calculate_client_baseline sqrt6 df_low = Ok (baseline_of df_low) /\
  In (first_baseline df_low) (baseline_of df_low) /\
  (tranzakcii_kol (first_baseline df_low) < 3)%nat /\
  koncentraciya (first_baseline df_low) == 1.
Proof.
  assert (calculate_client_baseline sqrt6 df_low = Ok (baseline_of df_low)) as H1
    by (vm_compute; reflexivity).
  assert (In (first_baseline df_low) (baseline_of df_low)) as H2 by (left; reflexivity).
  assert (tranzakcii_kol (first_baseline df_low) < 3)%nat as H3 by (simpl; lia).
  split; [exact H1|]. split; [exact H2|]. split; [exact H3|].
  exact (proj2 (BaselineTable.concentration_of_few_cells sqrt6 df_low _ _ H1 H2) H3).
Defined.

Lemma calculate_raises_iff_witness :
  (forall c, client_oborots df_idle c = []) /\
  exists e, calculate_client_baseline sqrt6 df_idle = Raise e.
Proof.
  assert (forall c, client_oborots df_idle c = []) as H.
  { intro c. unfold client_oborots, client_data, df_idle.
    cbn [filter period klyuch_klienta]. destruct (Z.eqb 1 c); reflexivity. }
  split; [exact H|].
  exact (proj2 (proj1 (BaselineTable.calculate_raises_iff sqrt6 df_idle)) H).
Defined.

Lemma at_most_one_anomaly_per_row_witness :
  In (hd (mkAnomaly 0 nizkie_rashody 0 (0, 0) 0 srednij) (identify_anomalies df_low t_low))
     (identify_anomalies df_low t_low) /\
  0 < tekushchij_oborot
        (hd (mkAnomaly 0 nizkie_rashody 0 (0, 0) 0 srednij) (identify_anomalies df_low t_low)).
Proof.
  assert (In (hd (mkAnomaly 0 nizkie_rashody 0 (0, 0) 0 srednij)
                 (identify_anomalies df_low t_low))
             (identify_anomalies df_low t_low)) as H by (left; reflexivity).
  split; [exact H|].
  exact (proj2 (proj2 (AnomalyTable.at_most_one_anomaly_per_row df_low t_low) _ H)).
Defined.

Lemma narrower_band_flags_more_witness :
  narrower t_low t_low_wide /\
  (length (identify_anomalies df_low t_low_wide)
   <= length (identify_anomalies df_low t_low))%nat.
Proof.
  assert (narrower t_low t_low_wide) as H.
  { unfold narrower. constructor; [|constructor].
    split; [reflexivity|]. split; vm_compute; discriminate. }
  split; [exact H|].
  exact (proj2 (AnomalyTable.narrower_band_flags_more df_low t_low t_low_wide H)).
Defined.

Lemma single_cell_client_witness :
  calculate_client_baseline sqrt6 df_single = Ok (baseline_of df_single) /\
  client_oborots df_single 1 = [5] /\
  row_anomaly (baseline_of df_single) (period 1 [5]) = None.
Proof.
  assert (calculate_client_baseline sqrt6 df_single = Ok (baseline_of df_single)) as H1
    by (vm_compute; reflexivity).
  assert (client_oborots df_single 1 = [5]) as H2 by reflexivity.
  split; [exact H1|]. split; [exact H2|].
  exact (proj2 (AnomalyTable.single_cell_client sqrt6 df_single _ 1%Z 5 H1 H2)
           (period 1 [5]) (or_introl eq_refl) eq_refl).
Defined.

Lemma cohort_sizes_partition_witness :
  In profile_outlier (calculate_cohort_profiles sqrt6 seg_outlier) /\
  (1 <= razmer_kogorty profile_outlier)%nat.
Proof.
  assert (In profile_outlier (calculate_cohort_profiles sqrt6 seg_outlier)) as H
    by (left; reflexivity).
  split; [exact H|].
  exact (proj2 (proj1 (proj2 (CohortTable.cohort_sizes_partition sqrt6 seg_outlier))
                  _ H)).
Defined.

Lemma scaled_columns_centred_witness :
  X_two <> [] /\ (0 < 4)%nat /\ mean (column (standard_scale sqrt6 X_two) 0) == 0.
Proof.
  assert (X_two <> []) as H1 by discriminate.
  assert (0 < 4)%nat as H2 by lia.
  split; [exact H1|]. split; [exact H2|].
  exact (proj2 (proj2 (ScalerFacts.scaled_columns_centred sqrt6 X_two)) H1 0%nat H2).
Defined.

Lemma profile_rounding_error_witness :
  In profile_outlier (calculate_cohort_profiles sqrt6 seg_outlier) /\
  Qabs (srednij_oborot profile_outlier
        - mean (map oborot_mean (members_of seg_outlier 0)))
  <= 1 # 200.
Proof.
  assert (In profile_outlier (calculate_cohort_profiles sqrt6 seg_outlier)) as H
    by (left; reflexivity).
  split; [exact H|].
  exact (proj1 (CohortTable.profile_rounding_error sqrt6 seg_outlier _ H)).
Defined.

Lemma fewer_than_eight_clients_witness :
  (forall k X, (length X < k)%nat -> exists e, Ward.fit_predict k X = Raise e) /\
  calculate_client_baseline sqrt6 df_outlier = Ok (baseline_of df_outlier) /\
  (length (baseline_of df_outlier) < 8)%nat /\
  main sqrt6 Ward.fit_predict (Ok df_outlier) fs_empty = (false, fs_empty).
Proof.
  assert (length (baseline_of df_outlier) < 8)%nat as H by (simpl; lia).
  split; [exact ward_refuses|]. split; [exact outlier_table|]. split; [exact H|].
  exact (CohortTable.fewer_than_eight_clients sqrt6 Ward.fit_predict df_outlier _ fs_empty
           ward_refuses outlier_table H).
Defined.

Lemma statistics_one_row_per_client_witness :
  In 1%Z (map klyuch_klienta df_low) /\
  In 1%Z (map Timeseries.s_klyuch_klienta
              (snd (Timeseries.calculate_client_statistics sqrt6 df_low))).
Proof.
  assert (In 1%Z (map klyuch_klienta df_low)) as H by (left; reflexivity).
  split; [exact H|].
  exact (proj2 (proj2 (proj2 (ZBandTable.statistics_one_row_per_client sqrt6 df_low))
                  1%Z) H).
Defined.

Lemma stats_low_row :
  In stats_low (snd (Timeseries.calculate_client_statistics sqrt6 df_low)).
Proof. left. reflexivity. Qed.

Lemma totals_between_min_and_max_witness :
  In stats_low (snd (Timeseries.calculate_client_statistics sqrt6 df_low)) /\
  Timeseries.oborot_min stats_low <= Timeseries.oborot_max stats_low /\
  Timeseries.periodov stats_low = 2%nat.
Proof.
  split; [exact stats_low_row|].
  destruct (ZBandTable.totals_between_min_and_max sqrt6 df_low _ stats_low_row)
    as [_ [A [B _]]].
  split; [exact A|exact B].
Defined.

Lemma band_contains_mean_witness :
  (forall x, 0 <= sqrt6 x) /\
  In stats_low (snd (Timeseries.calculate_client_statistics sqrt6 df_low)) /\
  Timeseries.oborot_mean stats_low <= Timeseries.ci_upper stats_low.
Proof.
  split; [exact sqrt6_nonneg|]. split; [exact stats_low_row|].
  exact (proj1 (proj2 (ZBandTable.band_contains_mean sqrt6 df_low _
                         sqrt6_nonneg stats_low_row))).
Defined.

Lemma report_counts_witness :
  (forall r,
     In r (Timeseries.calculate_anomaly_metrics
             (fst (Timeseries.calculate_client_statistics sqrt6 df_low))
             (snd (Timeseries.calculate_client_statistics sqrt6 df_low))) ->
     Timeseries.m_ci_lower r <= Timeseries.m_ci_upper r) /\
  length (Timeseries.anomalies
            (Timeseries.calculate_anomaly_metrics
               (fst (Timeseries.calculate_client_statistics sqrt6 df_low))
               (snd (Timeseries.calculate_client_statistics sqrt6 df_low))))
  = (TimeseriesReport.anomalies_high
       (TimeseriesReport.generate_report
          (snd (Timeseries.calculate_client_statistics sqrt6 df_low))
          (Timeseries.calculate_anomaly_metrics
             (fst (Timeseries.calculate_client_statistics sqrt6 df_low))
             (snd (Timeseries.calculate_client_statistics sqrt6 df_low))))
     + TimeseriesReport.anomalies_low
         (TimeseriesReport.generate_report
            (snd (Timeseries.calculate_client_statistics sqrt6 df_low))
            (Timeseries.calculate_anomaly_metrics
               (fst (Timeseries.calculate_client_statistics sqrt6 df_low))
               (snd (Timeseries.calculate_client_statistics sqrt6 df_low)))))%nat.
Proof.
  assert (forall r,
            In r (Timeseries.calculate_anomaly_metrics
                    (fst (Timeseries.calculate_client_statistics sqrt6 df_low))
                    (snd (Timeseries.calculate_client_statistics sqrt6 df_low))) ->
            Timeseries.m_ci_lower r <= Timeseries.m_ci_upper r) as H.
  { intros r Hr.
    destruct (ZBandFacts.calculate_anomaly_metrics_In _ _ r Hr)
      as [_ [s [_ [Hs [_ [_ [L [U _]]]]]]]].
    rewrite L, U. destruct Hs as [<-|[]]. vm_compute. discriminate. }
  split; [exact H|].
  exact (proj1 (proj2 (ReportFacts.report_counts
                         (fst (Timeseries.calculate_client_statistics sqrt6 df_low))
                         (snd (Timeseries.calculate_client_statistics sqrt6 df_low)))) H).
Defined.

Lemma final_band_brackets_forecast_witness :
  (-100 <= 10)%Z /\
  0 <= oborot_mean (first_baseline df_outlier) /\
  ci_lower (first_baseline df_outlier) <= ci_upper (first_baseline df_outlier) /\
  AppFinal.ci_lower (AppFinal.scenario (first_baseline df_outlier) 10 0 6)
  <= AppFinal.oborot (AppFinal.scenario (first_baseline df_outlier) 10 0 6).
Proof.
  assert (-100 <= 10)%Z as H1 by lia.
  assert (0 <= oborot_mean (first_baseline df_outlier)) as H2 by (vm_compute; discriminate).
  assert (ci_lower (first_baseline df_outlier) <= ci_upper (first_baseline df_outlier))
    as H3 by (vm_compute; discriminate).
  split; [exact H1|]. split; [exact H2|]. split; [exact H3|].
  exact (proj1 (proj2 (ForecastFacts.final_band_brackets_forecast
                         (first_baseline df_outlier) 10 0 6 H1 H2 H3))).
Defined.

Lemma main_band_brackets_forecast_witness :
  (-100 <= 10)%Z /\ (-100 <= 0)%Z /\
  0 <= oborot_mean (first_baseline df_outlier) /\
  0 <= cv (first_baseline df_outlier) /\
  AppFinal.oborot (AppMain.scenario (first_baseline df_outlier) 10 0 6)
  <= AppFinal.ci_upper (AppMain.scenario (first_baseline df_outlier) 10 0 6).
Proof.
  assert (-100 <= 10)%Z as H1 by lia.
  assert (-100 <= 0)%Z as H2 by lia.
  assert (0 <= oborot_mean (first_baseline df_outlier)) as H3 by (vm_compute; discriminate).
  assert (0 <= cv (first_baseline df_outlier)) as H4 by (vm_compute; discriminate).
  split; [exact H1|]. split; [exact H2|]. split; [exact H3|]. split; [exact H4|].
  exact (proj1 (proj2 (proj2 (ForecastFacts.main_band_brackets_forecast
                                (first_baseline df_outlier) 10 0 6 H1 H2 H3 H4)))).
Defined.

Lemma forecast_mean_compounds_witness :
  0 <= oborot_mean (first_baseline df_outlier) /\ (0 <= 10)%Z /\
  AppFinal.oborot (AppFinal.scenario (first_baseline df_outlier) 10 0 5)
  <= AppFinal.oborot (AppFinal.scenario (first_baseline df_outlier) 10 0 6).
Proof.
  assert (0 <= oborot_mean (first_baseline df_outlier)) as H1 by (vm_compute; discriminate).
  assert (0 <= 10)%Z as H2 by lia.
  split; [exact H1|]. split; [exact H2|].
  exact (proj1 (proj2 (proj2 (proj2 (ForecastFacts.forecast_mean_compounds
                                       (first_baseline df_outlier) 10 0 5)))) H1 H2).
Defined.

Lemma ages_missing_stops_run_witness :
  (forall r, In r [mkRow 1 [Some 5] None] -> vozrast r = None) /\
  main sqrt6 Ward.fit_predict (Ok [mkRow 1 [Some 5] None]) fs_empty = (false, fs_empty).
Proof.
  assert (forall r, In r [mkRow 1 [Some 5] None] -> vozrast r = None) as H
    by (intros r [<-|[]]; reflexivity).
  split; [exact H|].
  exact (proj2 (RunFacts.ages_missing_stops_run sqrt6 Ward.fit_predict _ fs_empty H)).
Defined.

End WorkedMore.
